(** * LR1110 secure element (lr1110-se.c): shallow embedding and properties

    The file embeds [lr1110-se.c], the LoRaWAN secure-element layer that sits
    on top of the LR1110 crypto engine driver.  Bytes are integers in
    [0, 256), buffers are lists of bytes, a C pointer to a buffer is an
    [option] ([None] is the null pointer).  The crypto engine, the board
    support functions and the change callback are collaborators that live
    outside the file: they are an interface here, and every call made to
    them is recorded, in order, in a trace. *)

From Stdlib Require Import ZArith List Lia Bool.
Import ListNotations.
Open Scope Z_scope.

(** ** Status codes and key identifiers *)

(** Modelled from the spec: the enumeration [SecureElementStatus_t] is
    declared in secure-element.h, which is missing.  The four names the source
    uses are constructors; [SECURE_ELEMENT_ENGINE_CODE] stands for every other
    code, which is only ever produced by the crypto engine and forwarded. *)
Inductive SecureElementStatus_t : Type :=
| SECURE_ELEMENT_SUCCESS
| SECURE_ELEMENT_ERROR_NPE
| SECURE_ELEMENT_ERROR_BUF_SIZE
| SECURE_ELEMENT_ERROR
| SECURE_ELEMENT_ENGINE_CODE (code : Z).

(** [status == SECURE_ELEMENT_SUCCESS] *)
Definition is_success (status : SecureElementStatus_t) : bool :=
  match status with
  | SECURE_ELEMENT_SUCCESS => true
  | _ => false
  end.

(** Modelled from the spec: [KeyIdentifier_t] is declared in a missing header.
    The constructors are the 23 case labels of the switch in
    [convert_key_id_from_se_to_lr1110] (C requires case labels to be pairwise
    distinct); [KEY_ID_OTHER v] is an integer [v] that equals none of them,
    declared in the enumeration or not. *)
Inductive KeyIdentifier_t : Type :=
| APP_KEY | NWK_KEY | J_S_INT_KEY | J_S_ENC_KEY
| F_NWK_S_INT_KEY | S_NWK_S_INT_KEY | NWK_S_ENC_KEY | APP_S_KEY
| MC_ROOT_KEY | MC_KE_KEY
| MC_KEY_0 | MC_APP_S_KEY_0 | MC_NWK_S_KEY_0
| MC_KEY_1 | MC_APP_S_KEY_1 | MC_NWK_S_KEY_1
| MC_KEY_2 | MC_APP_S_KEY_2 | MC_NWK_S_KEY_2
| MC_KEY_3 | MC_APP_S_KEY_3 | MC_NWK_S_KEY_3
| SLOT_RAND_ZERO_KEY
| KEY_ID_OTHER (v : Z).

(** Modelled from the spec: [lr1110_crypto_keys_idx_t] is declared in
    lr1110_crypto_engine.h, which is missing.  One constructor per slot name
    the source mentions. *)
Inductive lr1110_crypto_keys_idx_t : Type :=
| LR1110_CRYPTO_KEYS_IDX_GP0
| LR1110_CRYPTO_KEYS_IDX_GP1
| LR1110_CRYPTO_KEYS_IDX_APP_KEY
| LR1110_CRYPTO_KEYS_IDX_NWK_KEY
| LR1110_CRYPTO_KEYS_IDX_J_S_INT_KEY
| LR1110_CRYPTO_KEYS_IDX_J_S_ENC_KEY
| LR1110_CRYPTO_KEYS_IDX_F_NWK_S_INT_KEY
| LR1110_CRYPTO_KEYS_IDX_S_NWK_S_INT_KEY
| LR1110_CRYPTO_KEYS_IDX_NWK_S_ENC_KEY
| LR1110_CRYPTO_KEYS_IDX_APP_S_KEY
| LR1110_CRYPTO_KEYS_IDX_GP_KE_KEY_0
| LR1110_CRYPTO_KEYS_IDX_GP_KE_KEY_1
| LR1110_CRYPTO_KEYS_IDX_GP_KE_KEY_2
| LR1110_CRYPTO_KEYS_IDX_GP_KE_KEY_3
| LR1110_CRYPTO_KEYS_IDX_GP_KE_KEY_4
| LR1110_CRYPTO_KEYS_IDX_GP_KE_KEY_5
| LR1110_CRYPTO_KEYS_IDX_MC_APP_S_KEY_0
| LR1110_CRYPTO_KEYS_IDX_MC_NWK_S_KEY_0
| LR1110_CRYPTO_KEYS_IDX_MC_APP_S_KEY_1
| LR1110_CRYPTO_KEYS_IDX_MC_NWK_S_KEY_1
| LR1110_CRYPTO_KEYS_IDX_MC_APP_S_KEY_2
| LR1110_CRYPTO_KEYS_IDX_MC_NWK_S_KEY_2
| LR1110_CRYPTO_KEYS_IDX_MC_APP_S_KEY_3
| LR1110_CRYPTO_KEYS_IDX_MC_NWK_S_KEY_3.

(** [convert_key_id_from_se_to_lr1110]: the switch, arm by arm. *)
Definition convert_key_id_from_se_to_lr1110 (key_id : KeyIdentifier_t)
  : lr1110_crypto_keys_idx_t :=
  match key_id with
  | APP_KEY => LR1110_CRYPTO_KEYS_IDX_APP_KEY
  | NWK_KEY => LR1110_CRYPTO_KEYS_IDX_NWK_KEY
  | J_S_INT_KEY => LR1110_CRYPTO_KEYS_IDX_J_S_INT_KEY
  | J_S_ENC_KEY => LR1110_CRYPTO_KEYS_IDX_J_S_ENC_KEY
  | F_NWK_S_INT_KEY => LR1110_CRYPTO_KEYS_IDX_F_NWK_S_INT_KEY
  | S_NWK_S_INT_KEY => LR1110_CRYPTO_KEYS_IDX_S_NWK_S_INT_KEY
  | NWK_S_ENC_KEY => LR1110_CRYPTO_KEYS_IDX_NWK_S_ENC_KEY
  | APP_S_KEY => LR1110_CRYPTO_KEYS_IDX_APP_S_KEY
  | MC_ROOT_KEY => LR1110_CRYPTO_KEYS_IDX_GP_KE_KEY_5
  | MC_KE_KEY => LR1110_CRYPTO_KEYS_IDX_GP_KE_KEY_4
  | MC_KEY_0 => LR1110_CRYPTO_KEYS_IDX_GP_KE_KEY_0
  | MC_APP_S_KEY_0 => LR1110_CRYPTO_KEYS_IDX_MC_APP_S_KEY_0
  | MC_NWK_S_KEY_0 => LR1110_CRYPTO_KEYS_IDX_MC_NWK_S_KEY_0
  | MC_KEY_1 => LR1110_CRYPTO_KEYS_IDX_GP_KE_KEY_1
  | MC_APP_S_KEY_1 => LR1110_CRYPTO_KEYS_IDX_MC_APP_S_KEY_1
  | MC_NWK_S_KEY_1 => LR1110_CRYPTO_KEYS_IDX_MC_NWK_S_KEY_1
  | MC_KEY_2 => LR1110_CRYPTO_KEYS_IDX_GP_KE_KEY_2
  | MC_APP_S_KEY_2 => LR1110_CRYPTO_KEYS_IDX_MC_APP_S_KEY_2
  | MC_NWK_S_KEY_2 => LR1110_CRYPTO_KEYS_IDX_MC_NWK_S_KEY_2
  | MC_KEY_3 => LR1110_CRYPTO_KEYS_IDX_GP_KE_KEY_3
  | MC_APP_S_KEY_3 => LR1110_CRYPTO_KEYS_IDX_MC_APP_S_KEY_3
  | MC_NWK_S_KEY_3 => LR1110_CRYPTO_KEYS_IDX_MC_NWK_S_KEY_3
  | SLOT_RAND_ZERO_KEY => LR1110_CRYPTO_KEYS_IDX_GP0
  | KEY_ID_OTHER _ => LR1110_CRYPTO_KEYS_IDX_GP1
  end.

(** [( keyID == MC_KEY_0 ) || ( keyID == MC_KEY_1 ) || ( keyID == MC_KEY_2 ) ||
    ( keyID == MC_KEY_3 )] *)
Definition is_mc_key (keyID : KeyIdentifier_t) : bool :=
  match keyID with
  | MC_KEY_0 | MC_KEY_1 | MC_KEY_2 | MC_KEY_3 => true
  | _ => false
  end.

(** ** Memory *)

(** A buffer is the list of its bytes. *)
Abbreviation buffer := (list Z) (only parsing).

(** A C computation either returns or has undefined behaviour (a read or a
    write outside an object, or through a null pointer). *)
Inductive outcome (A : Type) : Type :=
| Returns (a : A)
| Undefined.
Arguments Returns {A} a.
Arguments Undefined {A}.

(** The bytes [data] stored at [dst + off]; the other bytes of [dst] stay. *)
Definition poke (dst : buffer) (off : nat) (data : list Z) : buffer :=
  firstn off dst ++ data ++ skipn (off + length data) dst.

(** Modelled from the spec: [memcpy1] (utilities.c) is missing.  It copies
    [size] bytes from [src] to [dst + off], front to back; with [size = 0] no
    pointer is dereferenced. *)
Definition memcpy1 (dst : buffer) (off : nat) (src : option buffer) (size : nat)
  : outcome buffer :=
  match size, src with
  | O, _ => Returns dst
  | _, None => Undefined
  | _, Some s =>
      if ((size <=? length s) && (off + size <=? length dst))%nat
      then Returns (poke dst off (firstn size s))
      else Undefined
  end.

(** Modelled from the spec: [memcpyr] (utilities.c) is missing.  It copies
    [size] bytes from [src] to [dst + off] in reversed byte order. *)
Definition memcpyr (dst : buffer) (off : nat) (src : option buffer) (size : nat)
  : outcome buffer :=
  match size, src with
  | O, _ => Returns dst
  | _, None => Undefined
  | _, Some s =>
      if ((size <=? length s) && (off + size <=? length dst))%nat
      then Returns (poke dst off (rev (firstn size s)))
      else Undefined
  end.

(** Modelled from the spec: [memset1] (utilities.c) is missing.  It fills the
    first [size] bytes of [dst] with [value]. *)
Definition memset1 (dst : buffer) (value : Z) (size : nat) : outcome buffer :=
  if (size <=? length dst)%nat
  then Returns (poke dst 0 (repeat value size))
  else Undefined.

(** [a[i] = v] *)
Definition array_set (a : buffer) (i : nat) (v : Z) : outcome buffer :=
  if (i <? length a)%nat then Returns (poke a i [v]) else Undefined.

(** [a[i]] *)
Definition array_get (a : buffer) (i : nat) : outcome Z :=
  match nth_error a i with
  | Some v => Returns v
  | None => Undefined
  end.

(** What a collaborator wrote through an output pointer [dst + off].  A
    collaborator that writes nothing leaves the pointer alone. *)
Definition written (dst : option buffer) (off : nat) (data : list Z)
  : outcome (option buffer) :=
  match data, dst with
  | [], _ => Returns dst
  | _, None => Undefined
  | _, Some d =>
      if (off + length data <=? length d)%nat
      then Returns (Some (poke d off data))
      else Undefined
  end.

(** At a use of a pointer, the object it refers to is alive, or it was
    declared in a block that has ended. *)
Inductive lifetime : Type :=
| Alive
| Ended.

(** The value of a pointer at a use.  Once the lifetime of its object has
    ended the value is indeterminate, and the use is undefined. *)
Definition pointer_value (p : option buffer) (l : lifetime)
  : outcome (option buffer) :=
  match l with
  | Alive => Returns p
  | Ended => Undefined
  end.

(** ** Constants *)

(** [#define MIC_BLOCK_BX_SIZE 16] *)
Definition MIC_BLOCK_BX_SIZE : nat := 16.

(** [#define CRYPTO_MAXMESSAGE_SIZE 256] *)
Definition CRYPTO_MAXMESSAGE_SIZE : nat := 256.

(** [#define CRYPTO_BUFFER_SIZE CRYPTO_MAXMESSAGE_SIZE + MIC_BLOCK_BX_SIZE]:
    the macro has no parentheses, and both of its uses (an array bound and a
    call argument) expand to the plain sum. *)
Definition CRYPTO_BUFFER_SIZE : nat := CRYPTO_MAXMESSAGE_SIZE + MIC_BLOCK_BX_SIZE.

(** Modelled from the spec: [SE_EUI_SIZE] is defined in a missing header; the
    spec gives 8 bytes for the device EUI and for the join EUI. *)
Definition SE_EUI_SIZE : nat := 8.

(** Modelled from the spec: [LORAMAC_JOIN_EUI_FIELD_SIZE] is defined in a
    missing header; the spec gives a JoinEUI of 8 bytes in the MIC header. *)
Definition LORAMAC_JOIN_EUI_FIELD_SIZE : nat := 8.

(** Modelled from the spec: [JOIN_ACCEPT_MIC_COMPUTATION_OFFSET] is defined in
    a missing header; the spec gives the layout of the 1.1.x MIC header as
    join-request type (1), JoinEUI (8), DevNonce (2), MHDR (1). *)
Definition JOIN_ACCEPT_MIC_COMPUTATION_OFFSET : nat := 1 + 8 + 2 + 1.

(** The build-time constants whose values neither the source nor the spec
    gives; they are parameters of the development. *)
Class BuildConfig : Type := {
  (** size of the PIN array *)
  SE_PIN_SIZE : nat;
  (** largest join-accept frame, with a channel list *)
  LORAMAC_JOIN_ACCEPT_FRAME_MAX_SIZE : Z;
  (** the 1.1.x trial is compiled when this is 1 *)
  USE_LRWAN_1_1_X_CRYPTO : Z;
  (** the value of [JOIN_REQ] in [JoinReqIdentifier_t] *)
  JOIN_REQ : Z;
  (** whether [SECURE_ELEMENT_PRE_PROVISIONED] is defined *)
  SECURE_ELEMENT_PRE_PROVISIONED : bool;
  STATIC_DEVICE_EUI : Z
}.

(** ** Collaborators *)

(** The calls the file makes to the crypto engine driver, each with the
    arguments it passes (the radio context and the status pointer apart). *)
Inductive lr1110_crypto_request : Type :=
| lr1110_crypto_restore_from_flash
| lr1110_crypto_store_to_flash
| lr1110_crypto_set_key (key_id : lr1110_crypto_keys_idx_t) (key : buffer)
| lr1110_crypto_derive_and_store_key
    (src_key_id dest_key_id : lr1110_crypto_keys_idx_t) (input : buffer)
| lr1110_crypto_compute_aes_cmac
    (key_id : lr1110_crypto_keys_idx_t) (data : option buffer) (length : Z)
| lr1110_crypto_verify_aes_cmac
    (key_id : lr1110_crypto_keys_idx_t) (data : buffer) (length : Z) (mic : Z)
| lr1110_crypto_aes_encrypt_01
    (key_id : lr1110_crypto_keys_idx_t) (data : buffer) (length : Z)
| lr1110_crypto_process_join_accept
    (dec_key_id ver_key_id : lr1110_crypto_keys_idx_t) (lorawan_version : Z)
    (header : buffer) (data_in : buffer) (length : Z).

(** The identity reads of the radio and of the board. *)
Inductive board_request : Type :=
| lr1110_system_read_uid
| lr1110_system_read_join_eui
| lr1110_system_read_pin
| LR1110SeHalGetUniqueId.

(** The collaborators, over a state [E] of their own.  A crypto call receives
    the value the status variable holds and gives the value it holds after the
    call, with the bytes written through the output pointer of the call (none
    when the call has no output pointer).  The engine reports its status
    through a pointer cast from [SecureElementStatus_t*], so that its codes
    are read as codes of [SecureElementStatus_t]. *)
Class Collaborators (E : Type) : Type := {
  crypto : E -> lr1110_crypto_request -> SecureElementStatus_t ->
           E * SecureElementStatus_t * list Z;
  board : E -> board_request -> E * list Z;
  LR1110SeHalGetRandomNumber : E -> E * Z;
  (** [LR1110_CRYPTO_STATUS_ERROR], read as a [SecureElementStatus_t] *)
  LR1110_CRYPTO_STATUS_ERROR : SecureElementStatus_t
}.

(** [SecureElementNvmEvent]: the function the static variable
    [SeNvmCtxChanged] points to. *)
Inductive SecureElementNvmEvent : Type :=
| DummyCB
| UserNvmEvent (handler : nat).

(** What the trace records. *)
Inductive Event : Type :=
| CryptoCall (r : lr1110_crypto_request)
| BoardCall (r : board_request)
| RandomCall
| NvmCtxChanged (cb : SecureElementNvmEvent).

(** ** State *)

(** [SecureElementNvCtx_t] *)
Record SecureElementNvCtx_t : Type := {
  DevEui : buffer;
  JoinEui : buffer;
  Pin : buffer
}.

(** The file's static variables, the state of the collaborators ([LR1110])
    and the trace.  [SeNvmCtxChanged] is [None] until it is assigned. *)
Record World (E : Type) : Type := {
  LR1110 : E;
  SeContext : SecureElementNvCtx_t;
  SeNvmCtxChanged : option SecureElementNvmEvent;
  trace : list Event
}.
Arguments LR1110 {E} w.
Arguments SeContext {E} w.
Arguments SeNvmCtxChanged {E} w.
Arguments trace {E} w.
Arguments Build_World {E} _ _ _ _.

(** [uint8_t] arrays have no padding: the struct is its three fields in
    order. *)
Definition SeContext_bytes (c : SecureElementNvCtx_t) : buffer :=
  DevEui c ++ JoinEui c ++ Pin c.

Section Program.

Context {cfg : BuildConfig} {E : Type} {env : Collaborators E}.

(** [sizeof( SeContext )] *)
Definition sizeof_SeContext : nat := SE_EUI_SIZE + SE_EUI_SIZE + SE_PIN_SIZE.

(** The struct read back from its bytes. *)
Definition SeContext_of_bytes (b : buffer) : SecureElementNvCtx_t :=
  {| DevEui := firstn SE_EUI_SIZE b;
     JoinEui := firstn SE_EUI_SIZE (skipn SE_EUI_SIZE b);
     Pin := firstn SE_PIN_SIZE (skipn (SE_EUI_SIZE + SE_EUI_SIZE) b) |}.

(** The arrays of the struct have their declared sizes. *)
Definition SeContext_wf (c : SecureElementNvCtx_t) : Prop :=
  length (DevEui c) = SE_EUI_SIZE /\
  length (JoinEui c) = SE_EUI_SIZE /\
  length (Pin c) = SE_PIN_SIZE.

(** ** Computations over the world *)

Definition M (A : Type) : Type := World E -> outcome (A * World E).

Definition ret {A : Type} (a : A) : M A := fun w => Returns (a, w).

Definition bind {A B : Type} (m : M A) (k : A -> M B) : M B :=
  fun w =>
    match m w with
    | Returns (a, w') => k a w'
    | Undefined => Undefined
    end.

Definition lift {A : Type} (o : outcome A) : M A :=
  fun w =>
    match o with
    | Returns a => Returns (a, w)
    | Undefined => Undefined
    end.

Definition get_SeContext : M SecureElementNvCtx_t :=
  fun w => Returns (SeContext w, w).

Definition set_SeContext (c : SecureElementNvCtx_t) : M unit :=
  fun w => Returns (tt, {| LR1110 := LR1110 w; SeContext := c;
                           SeNvmCtxChanged := SeNvmCtxChanged w;
                           trace := trace w |}).

(** [SeNvmCtxChanged = cb] *)
Definition assign_SeNvmCtxChanged (cb : SecureElementNvmEvent) : M unit :=
  fun w => Returns (tt, {| LR1110 := LR1110 w; SeContext := SeContext w;
                           SeNvmCtxChanged := Some cb;
                           trace := trace w |}).

(** [SeNvmCtxChanged( )]: a call through the function pointer, undefined
    while the pointer is null. *)
Definition call_SeNvmCtxChanged : M unit :=
  fun w =>
    match SeNvmCtxChanged w with
    | Some cb =>
        Returns (tt, {| LR1110 := LR1110 w; SeContext := SeContext w;
                        SeNvmCtxChanged := SeNvmCtxChanged w;
                        trace := trace w ++ [NvmCtxChanged cb] |})
    | None => Undefined
    end.

(** A call of the crypto engine with [&status] holding [status]: the new
    status and the bytes the engine wrote through its output pointer. *)
Definition lr1110_crypto (r : lr1110_crypto_request)
  (status : SecureElementStatus_t) : M (SecureElementStatus_t * list Z) :=
  fun w =>
    let '(e, status', data) := crypto (LR1110 w) r status in
    Returns ((status', data),
             {| LR1110 := e; SeContext := SeContext w;
                SeNvmCtxChanged := SeNvmCtxChanged w;
                trace := trace w ++ [CryptoCall r] |}).

(** An identity read: the bytes written through the pointer argument. *)
Definition board_read (r : board_request) : M (list Z) :=
  fun w =>
    let '(e, data) := board (LR1110 w) r in
    Returns (data,
             {| LR1110 := e; SeContext := SeContext w;
                SeNvmCtxChanged := SeNvmCtxChanged w;
                trace := trace w ++ [BoardCall r] |}).

Definition hal_random : M Z :=
  fun w =>
    let '(e, n) := LR1110SeHalGetRandomNumber (LR1110 w) in
    Returns (n,
             {| LR1110 := e; SeContext := SeContext w;
                SeNvmCtxChanged := SeNvmCtxChanged w;
                trace := trace w ++ [RandomCall] |}).

End Program.

Arguments M : clear implicits.

Declare Scope se_scope.
Delimit Scope se_scope with se.
Notation "x <- c1 ;; c2" := (bind c1 (fun x => c2))
  (at level 61, c1 at next level, right associativity) : se_scope.
Notation "' p <- c1 ;; c2" := (bind c1 (fun x => let p := x in c2))
  (at level 61, p pattern, c1 at next level, right associativity) : se_scope.
Notation "c1 ;;; c2" := (bind c1 (fun _ => c2))
  (at level 61, right associativity) : se_scope.

(** ** The operations of lr1110-se.c *)

(** What [SecureElementProcessJoinAccept] leaves behind: the returned status,
    the caller's [decJoinAccept] buffer and the cell [*versionMinor]. *)
Record JoinAcceptResult : Type := {
  ja_status : SecureElementStatus_t;
  ja_decJoinAccept : option buffer;
  ja_versionMinor : option Z
}.

Section Operations.

Context {cfg : BuildConfig} {E : Type} {env : Collaborators E}.

Open Scope se_scope.

(** [SecureElementInit]; the argument is [None] for a null function
    pointer. *)
Definition SecureElementInit (seNvmCtxChanged : option nat)
  : M E SecureElementStatus_t :=
  let status := LR1110_CRYPTO_STATUS_ERROR in
  assign_SeNvmCtxChanged
    (match seNvmCtxChanged with
     | Some handler => UserNvmEvent handler
     | None => DummyCB
     end) ;;;
  '(status, _) <- lr1110_crypto lr1110_crypto_restore_from_flash status ;;
  (if SECURE_ELEMENT_PRE_PROVISIONED then
     uid <- board_read lr1110_system_read_uid ;;
     c <- get_SeContext ;;
     dev <- lift (written (Some (DevEui c)) 0 uid) ;;
     set_SeContext {| DevEui := match dev with Some d => d | None => DevEui c end;
                      JoinEui := JoinEui c; Pin := Pin c |} ;;;
     eui <- board_read lr1110_system_read_join_eui ;;
     c <- get_SeContext ;;
     join <- lift (written (Some (JoinEui c)) 0 eui) ;;
     set_SeContext {| DevEui := DevEui c;
                      JoinEui := match join with Some j => j | None => JoinEui c end;
                      Pin := Pin c |} ;;;
     pin <- board_read lr1110_system_read_pin ;;
     c <- get_SeContext ;;
     p <- lift (written (Some (Pin c)) 0 pin) ;;
     set_SeContext {| DevEui := DevEui c; JoinEui := JoinEui c;
                      Pin := match p with Some x => x | None => Pin c end |}
   else if STATIC_DEVICE_EUI =? 0 then
     uid <- board_read LR1110SeHalGetUniqueId ;;
     c <- get_SeContext ;;
     dev <- lift (written (Some (DevEui c)) 0 uid) ;;
     set_SeContext {| DevEui := match dev with Some d => d | None => DevEui c end;
                      JoinEui := JoinEui c; Pin := Pin c |}
   else ret tt) ;;;
  call_SeNvmCtxChanged ;;;
  ret status.

(** [SecureElementRestoreNvmCtx] *)
Definition SecureElementRestoreNvmCtx (seNvmCtx : option buffer)
  : M E SecureElementStatus_t :=
  let status := LR1110_CRYPTO_STATUS_ERROR in
  match seNvmCtx with
  | None => ret SECURE_ELEMENT_ERROR_NPE
  | Some _ =>
      '(status, _) <- lr1110_crypto lr1110_crypto_restore_from_flash status ;;
      c <- get_SeContext ;;
      bytes <- lift (memcpy1 (SeContext_bytes c) 0 seNvmCtx sizeof_SeContext) ;;
      set_SeContext (SeContext_of_bytes bytes) ;;;
      ret status
  end.

(** [SecureElementGetNvmCtx]: the value stored in [*seNvmCtxSize] and the
    bytes found at the returned pointer, which is the live context. *)
Definition SecureElementGetNvmCtx (seNvmCtxSize : option Z) : M E (Z * buffer) :=
  match seNvmCtxSize with
  | None => lift Undefined
  | Some _ =>
      c <- get_SeContext ;;
      ret (Z.of_nat sizeof_SeContext, SeContext_bytes c)
  end.

(** [SecureElementSetKey] *)
Definition SecureElementSetKey (keyID : KeyIdentifier_t) (key : option buffer)
  : M E SecureElementStatus_t :=
  match key with
  | None => ret SECURE_ELEMENT_ERROR_NPE
  | Some k =>
      let status := SECURE_ELEMENT_ERROR in
      if is_mc_key keyID then
        '(status, _) <-
          lr1110_crypto
            (lr1110_crypto_derive_and_store_key
               (convert_key_id_from_se_to_lr1110 MC_KE_KEY)
               (convert_key_id_from_se_to_lr1110 keyID) k) status ;;
        if is_success status then
          '(status, _) <- lr1110_crypto lr1110_crypto_store_to_flash status ;;
          ret status
        else ret status
      else
        '(status, _) <-
          lr1110_crypto
            (lr1110_crypto_set_key (convert_key_id_from_se_to_lr1110 keyID) k)
            status ;;
        if is_success status then
          '(status, _) <- lr1110_crypto lr1110_crypto_store_to_flash status ;;
          ret status
        else ret status
  end.

(** The block of [SecureElementComputeAesCmac] under
    [if( micBxBuffer != NULL )]: the array [micBuff], declared in the block,
    is cleared, filled with the MIC block and with the payload behind it.
    The result is the value the block gives [localSize] (a [uint16_t]) and
    the contents of [micBuff] when the block ends. *)
Definition ComputeAesCmac_micBuff (micBxBuffer buffer_ : option buffer)
  (size : Z) : outcome (Z * buffer) :=
  match memset1 (repeat 0 CRYPTO_BUFFER_SIZE) 0 CRYPTO_BUFFER_SIZE with
  | Undefined => Undefined
  | Returns micBuff =>
      match memcpy1 micBuff 0 micBxBuffer MIC_BLOCK_BX_SIZE with
      | Undefined => Undefined
      | Returns micBuff =>
          match memcpy1 micBuff MIC_BLOCK_BX_SIZE buffer_ (Z.to_nat size) with
          | Undefined => Undefined
          | Returns micBuff =>
              Returns ((size + Z.of_nat MIC_BLOCK_BX_SIZE) mod 65536, micBuff)
          end
      end
  end.

(** [SecureElementComputeAesCmac]; [size] is a [uint16_t], [cmac] points to
    the four bytes of a [uint32_t].  The result is the status and the cell
    [*cmac].  With a MIC block, [localbuffer] is left pointing to [micBuff],
    whose block has ended when the engine call uses the pointer. *)
Definition SecureElementComputeAesCmac (micBxBuffer buffer_ : option buffer)
  (size : Z) (keyID : KeyIdentifier_t) (cmac : option buffer)
  : M E (SecureElementStatus_t * option buffer) :=
  let status := SECURE_ELEMENT_ERROR in
  let localSize := size in
  let localbuffer := (buffer_, Alive) in
  '(localSize, localbuffer) <-
     match micBxBuffer with
     | Some _ =>
         '(localSize, micBuff) <-
           lift (ComputeAesCmac_micBuff micBxBuffer buffer_ size) ;;
         ret (localSize, (Some micBuff, Ended))
     | None => ret (localSize, localbuffer)
     end ;;
  data <- lift (pointer_value (fst localbuffer) (snd localbuffer)) ;;
  '(status, mac) <-
     lr1110_crypto
       (lr1110_crypto_compute_aes_cmac
          (convert_key_id_from_se_to_lr1110 keyID) data localSize)
       status ;;
  cmac <- lift (written cmac 0 mac) ;;
  ret (status, cmac).

(** [SecureElementVerifyAesCmac] *)
Definition SecureElementVerifyAesCmac (buffer_ : option buffer) (size : Z)
  (expectedCmac : Z) (keyID : KeyIdentifier_t) : M E SecureElementStatus_t :=
  let status := SECURE_ELEMENT_ERROR in
  match buffer_ with
  | None => ret SECURE_ELEMENT_ERROR_NPE
  | Some b =>
      '(status, _) <-
        lr1110_crypto
          (lr1110_crypto_verify_aes_cmac
             (convert_key_id_from_se_to_lr1110 keyID) b size expectedCmac)
          status ;;
      ret status
  end.

(** [SecureElementAesEncrypt]: the status and the caller's [encBuffer]. *)
Definition SecureElementAesEncrypt (buffer_ : option buffer) (size : Z)
  (keyID : KeyIdentifier_t) (encBuffer : option buffer)
  : M E (SecureElementStatus_t * option buffer) :=
  let status := SECURE_ELEMENT_ERROR in
  match buffer_, encBuffer with
  | Some b, Some _ =>
      '(status, enc) <-
        lr1110_crypto
          (lr1110_crypto_aes_encrypt_01
             (convert_key_id_from_se_to_lr1110 keyID) b size)
          status ;;
      encBuffer <- lift (written encBuffer 0 enc) ;;
      ret (status, encBuffer)
  | _, _ => ret (SECURE_ELEMENT_ERROR_NPE, encBuffer)
  end.

(** [SecureElementDeriveAndStoreKey]; [version] is not used. *)
Definition SecureElementDeriveAndStoreKey (version : Z) (input : option buffer)
  (rootKeyID targetKeyID : KeyIdentifier_t) : M E SecureElementStatus_t :=
  let status := SECURE_ELEMENT_ERROR in
  match input with
  | None => ret SECURE_ELEMENT_ERROR_NPE
  | Some i =>
      '(status, _) <-
        lr1110_crypto
          (lr1110_crypto_derive_and_store_key
             (convert_key_id_from_se_to_lr1110 rootKeyID)
             (convert_key_id_from_se_to_lr1110 targetKeyID) i) status ;;
      '(status, _) <- lr1110_crypto lr1110_crypto_store_to_flash status ;;
      ret status
  end.

(** [p[i]] through a pointer. *)
Definition deref (p : option buffer) (i : nat) : outcome Z :=
  match p with
  | Some a => array_get a i
  | None => Undefined
  end.

(** The part of [SecureElementProcessJoinAccept] from
    [#if( USE_LRWAN_1_1_X_CRYPTO == 1 )] to the final [return status], which
    every path that does not return from the 1.0.x trial reaches with the
    values of [status], [decJoinAccept] and [*versionMinor] it has then. *)
Definition ProcessJoinAccept_1_1_x (joinReqType : Z) (joinEui : option buffer)
  (devNonce : Z) (enc : buffer) (encJoinAcceptSize : Z)
  (encKeyID : KeyIdentifier_t) (status : SecureElementStatus_t)
  (decJoinAccept : option buffer) (versionMinor : option Z)
  : M E JoinAcceptResult :=
  if USE_LRWAN_1_1_X_CRYPTO =? 1 then
    let micHeader11 := repeat 0 JOIN_ACCEPT_MIC_COMPUTATION_OFFSET in
    let bufItr := 0%nat in
    micHeader11 <- lift (array_set micHeader11 bufItr (joinReqType mod 256)) ;;
    let bufItr := S bufItr in
    micHeader11 <-
      lift (memcpyr micHeader11 bufItr joinEui LORAMAC_JOIN_EUI_FIELD_SIZE) ;;
    let bufItr := (bufItr + LORAMAC_JOIN_EUI_FIELD_SIZE)%nat in
    micHeader11 <- lift (array_set micHeader11 bufItr (Z.land devNonce 0xFF)) ;;
    let bufItr := S bufItr in
    micHeader11 <-
      lift (array_set micHeader11 bufItr (Z.land (Z.shiftr devNonce 8) 0xFF)) ;;
    let bufItr := S bufItr in
    micHeader11 <- lift (array_set micHeader11 bufItr 0x20) ;;
    '(status, plain) <-
      lr1110_crypto
        (lr1110_crypto_process_join_accept
           (convert_key_id_from_se_to_lr1110 encKeyID)
           (convert_key_id_from_se_to_lr1110 J_S_INT_KEY) 1 micHeader11
           (skipn 1 enc) (encJoinAcceptSize - 1)) status ;;
    decJoinAccept <- lift (written decJoinAccept 1 plain) ;;
    if is_success status then
      b <- lift (deref decJoinAccept 11) ;;
      let minor := if Z.land b 0x80 =? 0x80 then 1 else 0 in
      if minor =? 1 then
        ret {| ja_status := SECURE_ELEMENT_SUCCESS;
               ja_decJoinAccept := decJoinAccept;
               ja_versionMinor := Some minor |}
      else
        ret {| ja_status := status;
               ja_decJoinAccept := decJoinAccept;
               ja_versionMinor := Some minor |}
    else
      ret {| ja_status := status;
             ja_decJoinAccept := decJoinAccept;
             ja_versionMinor := versionMinor |}
  else
    ret {| ja_status := status;
           ja_decJoinAccept := decJoinAccept;
           ja_versionMinor := versionMinor |}.

(** [SecureElementProcessJoinAccept]; [joinReqType] is the integer value of
    the [JoinReqIdentifier_t], [devNonce] a [uint16_t], [encJoinAcceptSize] a
    [uint8_t], [versionMinor] points to one byte.  The length argument of the
    engine call is the value of [encJoinAcceptSize - 1]. *)
Definition SecureElementProcessJoinAccept (joinReqType : Z)
  (joinEui : option buffer) (devNonce : Z) (encJoinAccept : option buffer)
  (encJoinAcceptSize : Z) (decJoinAccept : option buffer)
  (versionMinor : option Z) : M E JoinAcceptResult :=
  let status := SECURE_ELEMENT_ERROR in
  match encJoinAccept, decJoinAccept, versionMinor with
  | Some enc, Some _, Some _ =>
      if encJoinAcceptSize >? LORAMAC_JOIN_ACCEPT_FRAME_MAX_SIZE then
        ret {| ja_status := SECURE_ELEMENT_ERROR_BUF_SIZE;
               ja_decJoinAccept := decJoinAccept;
               ja_versionMinor := versionMinor |}
      else
        let encKeyID :=
          if negb (joinReqType =? JOIN_REQ) then J_S_ENC_KEY else NWK_KEY in
        let micHeader10 := [0x20] in
        '(status, plain) <-
          lr1110_crypto
            (lr1110_crypto_process_join_accept
               (convert_key_id_from_se_to_lr1110 encKeyID)
               (convert_key_id_from_se_to_lr1110 NWK_KEY) 0 micHeader10
               (skipn 1 enc) (encJoinAcceptSize - 1)) status ;;
        decJoinAccept <- lift (written decJoinAccept 1 plain) ;;
        if is_success status then
          b <- lift (deref decJoinAccept 11) ;;
          let minor := if Z.land b 0x80 =? 0x80 then 1 else 0 in
          if minor =? 0 then
            ret {| ja_status := SECURE_ELEMENT_SUCCESS;
                   ja_decJoinAccept := decJoinAccept;
                   ja_versionMinor := Some minor |}
          else
            ProcessJoinAccept_1_1_x joinReqType joinEui devNonce enc
              encJoinAcceptSize encKeyID status decJoinAccept (Some minor)
        else
          ProcessJoinAccept_1_1_x joinReqType joinEui devNonce enc
            encJoinAcceptSize encKeyID status decJoinAccept versionMinor
  | _, _, _ =>
      ret {| ja_status := SECURE_ELEMENT_ERROR_NPE;
             ja_decJoinAccept := decJoinAccept;
             ja_versionMinor := versionMinor |}
  end.

(** [SecureElementRandomNumber]: the status and the cell [*randomNum]. *)
Definition SecureElementRandomNumber (randomNum : option Z)
  : M E (SecureElementStatus_t * option Z) :=
  match randomNum with
  | None => ret (SECURE_ELEMENT_ERROR_NPE, randomNum)
  | Some _ =>
      n <- hal_random ;;
      ret (SECURE_ELEMENT_SUCCESS, Some n)
  end.

(** [SecureElementSetDevEui] *)
Definition SecureElementSetDevEui (devEui : option buffer)
  : M E SecureElementStatus_t :=
  match devEui with
  | None => ret SECURE_ELEMENT_ERROR_NPE
  | Some _ =>
      c <- get_SeContext ;;
      field <- lift (memcpy1 (DevEui c) 0 devEui SE_EUI_SIZE) ;;
      set_SeContext {| DevEui := field; JoinEui := JoinEui c; Pin := Pin c |} ;;;
      call_SeNvmCtxChanged ;;;
      ret SECURE_ELEMENT_SUCCESS
  end.

(** [SecureElementGetDevEui] *)
Definition SecureElementGetDevEui : M E buffer :=
  c <- get_SeContext ;; ret (DevEui c).

(** [SecureElementSetJoinEui] *)
Definition SecureElementSetJoinEui (joinEui : option buffer)
  : M E SecureElementStatus_t :=
  match joinEui with
  | None => ret SECURE_ELEMENT_ERROR_NPE
  | Some _ =>
      c <- get_SeContext ;;
      field <- lift (memcpy1 (JoinEui c) 0 joinEui SE_EUI_SIZE) ;;
      set_SeContext {| DevEui := DevEui c; JoinEui := field; Pin := Pin c |} ;;;
      call_SeNvmCtxChanged ;;;
      ret SECURE_ELEMENT_SUCCESS
  end.

(** [SecureElementGetJoinEui] *)
Definition SecureElementGetJoinEui : M E buffer :=
  c <- get_SeContext ;; ret (JoinEui c).

(** [SecureElementSetPin] *)
Definition SecureElementSetPin (pin : option buffer)
  : M E SecureElementStatus_t :=
  match pin with
  | None => ret SECURE_ELEMENT_ERROR_NPE
  | Some _ =>
      c <- get_SeContext ;;
      field <- lift (memcpy1 (Pin c) 0 pin SE_PIN_SIZE) ;;
      set_SeContext {| DevEui := DevEui c; JoinEui := JoinEui c; Pin := field |} ;;;
      call_SeNvmCtxChanged ;;;
      ret SECURE_ELEMENT_SUCCESS
  end.

(** [SecureElementGetPin] *)
Definition SecureElementGetPin : M E buffer :=
  c <- get_SeContext ;; ret (Pin c).

End Operations.

(** ** Reading the trace *)

Definition is_process_join_accept (ev : Event) : bool :=
  match ev with
  | CryptoCall (lr1110_crypto_process_join_accept _ _ _ _ _ _) => true
  | _ => false
  end.

(** How many events of a kind a trace holds. *)
Definition count (kind : Event -> bool) (t : list Event) : nat :=
  length (filter kind t).

(** The 1.1.x MIC header in the words of the spec: the join-request-type
    byte, the JoinEUI in reversed byte order, DevNonce as two little-endian
    bytes, the MHDR byte 0x20. *)
Definition spec_mic_header_1_1_x (joinReqType : Z) (joinEui : buffer)
  (devNonce : Z) : buffer :=
  [joinReqType mod 256] ++ rev (firstn 8 joinEui) ++
  [devNonce mod 256; (devNonce / 256) mod 256] ++ [0x20].

(** The message of [SecureElementComputeAesCmac] in the words of the spec:
    the 16-byte MIC block followed by the payload. *)
Definition spec_cmac_message (micBlock payload : buffer) (size : Z) : buffer :=
  firstn 16 micBlock ++ firstn (Z.to_nat size) payload.

(** ** Reading the join-accept trials *)

Section Trials.

Context {cfg : BuildConfig} {E : Type} {env : Collaborators E}.

(** The world after one more engine call. *)
Definition after_call (w : World E) (e : E) (r : lr1110_crypto_request)
  : World E :=
  {| LR1110 := e; SeContext := SeContext w;
     SeNvmCtxChanged := SeNvmCtxChanged w;
     trace := trace w ++ [CryptoCall r] |}.

(** The decryption key of both trials. *)
Definition dec_key_slot (joinReqType : Z) : lr1110_crypto_keys_idx_t :=
  if joinReqType =? JOIN_REQ
  then LR1110_CRYPTO_KEYS_IDX_NWK_KEY
  else LR1110_CRYPTO_KEYS_IDX_J_S_ENC_KEY.

(** The engine call of the 1.0.x trial: the MIC key is NwkKey, the version
    tag 0, the MIC header the single byte 0x20. *)
Definition trial_1_0_x (joinReqType : Z) (enc : buffer) (size : Z)
  : lr1110_crypto_request :=
  lr1110_crypto_process_join_accept
    (dec_key_slot joinReqType) LR1110_CRYPTO_KEYS_IDX_NWK_KEY 0 [0x20]
    (skipn 1 enc) (size - 1).

(** The engine call of the 1.1.x trial: the MIC key is JSIntKey, the version
    tag 1, the MIC header the one of the spec. *)
Definition trial_1_1_x (joinReqType : Z) (joinEui : buffer) (devNonce : Z)
  (enc : buffer) (size : Z) : lr1110_crypto_request :=
  lr1110_crypto_process_join_accept
    (dec_key_slot joinReqType) LR1110_CRYPTO_KEYS_IDX_J_S_INT_KEY 1
    (spec_mic_header_1_1_x joinReqType joinEui devNonce)
    (skipn 1 enc) (size - 1).

(** Bit 0x80 of byte 11 of a frame. *)
Definition version_bit (frame : buffer) : option bool :=
  match nth_error frame 11 with
  | Some b => Some (Z.land b 0x80 =? 0x80)
  | None => None
  end.

End Trials.

(** ** A configuration and a scripted engine, for concrete runs *)

(** The constants as the LoRaMac stack sets them: a PIN of 4 bytes, a
    join-accept frame of at most 33 bytes, 1.1.x crypto compiled in. *)
Definition stack_config : BuildConfig := {|
  SE_PIN_SIZE := 4;
  LORAMAC_JOIN_ACCEPT_FRAME_MAX_SIZE := 33;
  USE_LRWAN_1_1_X_CRYPTO := 1;
  JOIN_REQ := 0xFF;
  SECURE_ELEMENT_PRE_PROVISIONED := false;
  STATIC_DEVICE_EUI := 0
|}.

(** An engine that answers the successive crypto calls with the successive
    entries of a script (a status and the bytes it writes), and leaves the
    status alone once the script is used up. *)
Definition script : Type := list (SecureElementStatus_t * list Z).

Definition scripted : Collaborators script := {|
  crypto := fun s _ status =>
    match s with
    | [] => ([], status, [])
    | (st, out) :: s' => (s', st, out)
    end;
  board := fun s _ => (s, [1; 2; 3; 4; 5; 6; 7; 8]);
  LR1110SeHalGetRandomNumber := fun s => (s, 4);
  LR1110_CRYPTO_STATUS_ERROR := SECURE_ELEMENT_ERROR
|}.

(** A world whose engine runs the script [s], after initialisation with no
    callback. *)
Definition world_of (s : script) : World script := {|
  LR1110 := s;
  SeContext := {| DevEui := repeat 0 8; JoinEui := repeat 0 8; Pin := repeat 0 4 |};
  SeNvmCtxChanged := Some DummyCB;
  trace := []
|}.

(** A join-accept frame of 17 bytes, a plaintext body of 16 bytes whose
    DLSettings byte (offset 11 of the frame, 10 of the body) has bit 0x80
    clear, and one where it is set. *)
Definition frame17 : buffer := 0x20 :: repeat 0xAA 16.
Definition body_v10 : list Z := [1; 2; 3; 4; 5; 6; 7; 8; 9; 10; 0x05; 1; 0; 0; 0; 0].
Definition body_v11 : list Z := [1; 2; 3; 4; 5; 6; 7; 8; 9; 10; 0x85; 1; 0; 0; 0; 0].
Definition eui8 : buffer := [0x10; 0x11; 0x12; 0x13; 0x14; 0x15; 0x16; 0x17].

(** ** Reading a run *)

Definition is_NvmCtxChanged (ev : Event) : bool :=
  match ev with
  | NvmCtxChanged _ => true
  | _ => false
  end.

Definition is_crypto_call (ev : Event) : bool :=
  match ev with
  | CryptoCall _ => true
  | _ => false
  end.

(** The function [SecureElementInit] stores in [SeNvmCtxChanged] for an
    argument: the caller's, or [DummyCB] for a null pointer. *)
Definition installed_callback (seNvmCtxChanged : option nat)
  : SecureElementNvmEvent :=
  match seNvmCtxChanged with
  | Some handler => UserNvmEvent handler
  | None => DummyCB
  end.

(** The world [w'] is [w] after at most [n] more events, all of the kind
    [kind], with the same context and the same callback pointer. *)
Definition only_calls {E : Type} (kind : Event -> bool) (n : nat)
  (w w' : World E) : Prop :=
  SeContext w' = SeContext w /\
  SeNvmCtxChanged w' = SeNvmCtxChanged w /\
  exists calls,
    trace w' = trace w ++ calls /\
    (length calls <= n)%nat /\
    forallb kind calls = true.

(** A configuration without the 1.1.x trial. *)
Definition legacy_config : BuildConfig := {|
  SE_PIN_SIZE := 4;
  LORAMAC_JOIN_ACCEPT_FRAME_MAX_SIZE := 33;
  USE_LRWAN_1_1_X_CRYPTO := 0;
  JOIN_REQ := 0xFF;
  SECURE_ELEMENT_PRE_PROVISIONED := false;
  STATIC_DEVICE_EUI := 1
|}.

(** * Properties *)

(** ** Memory lemmas *)

Lemma poke_nil (dst : buffer) (off : nat) : poke dst off [] = dst.
Proof.
  unfold poke. simpl. rewrite Nat.add_0_r. apply firstn_skipn.
Qed.

Lemma poke_length (dst : buffer) (off : nat) (data : list Z) :
  (off + length data <= length dst)%nat ->
  length (poke dst off data) = length dst.
Proof.
  intros H. unfold poke.
  rewrite !length_app, length_firstn, length_skipn. lia.
Qed.

Lemma poke_whole (dst data : buffer) :
  length data = length dst -> poke dst 0 data = data.
Proof.
  intros H. unfold poke. simpl.
  rewrite skipn_all2 by lia. apply app_nil_r.
Qed.

Lemma written_Some (d : buffer) (off : nat) (data : list Z) :
  (off + length data <= length d)%nat ->
  written (Some d) off data = Returns (Some (poke d off data)).
Proof.
  intros H. unfold written. destruct data as [|x data].
  - now rewrite poke_nil.
  - apply Nat.leb_le in H. now rewrite H.
Qed.

Lemma memcpy1_Some (dst s : buffer) (off size : nat) :
  (size <= length s)%nat -> (off + size <= length dst)%nat ->
  memcpy1 dst off (Some s) size = Returns (poke dst off (firstn size s)).
Proof.
  intros Hs Hd. unfold memcpy1. destruct size as [|n].
  - now rewrite poke_nil.
  - apply Nat.leb_le in Hs, Hd. now rewrite Hs, Hd.
Qed.

Lemma memcpyr_Some (dst s : buffer) (off size : nat) :
  (size <= length s)%nat -> (off + size <= length dst)%nat ->
  memcpyr dst off (Some s) size = Returns (poke dst off (rev (firstn size s))).
Proof.
  intros Hs Hd. unfold memcpyr. destruct size as [|n].
  - now rewrite poke_nil.
  - apply Nat.leb_le in Hs, Hd. now rewrite Hs, Hd.
Qed.

Lemma is_success_true (status : SecureElementStatus_t) :
  is_success status = true <-> status = SECURE_ELEMENT_SUCCESS.
Proof. destruct status; simpl; split; congruence. Qed.

Lemma is_success_false (status : SecureElementStatus_t) :
  is_success status = false <-> status <> SECURE_ELEMENT_SUCCESS.
Proof. destruct status; simpl; split; congruence. Qed.

Lemma is_mc_key_In (keyID : KeyIdentifier_t) :
  is_mc_key keyID = true <-> In keyID [MC_KEY_0; MC_KEY_1; MC_KEY_2; MC_KEY_3].
Proof.
  split.
  - destruct keyID; simpl; intros H; try discriminate; tauto.
  - simpl. intros [H | [H | [H | [H | []]]]]; subst; reflexivity.
Qed.

Lemma is_mc_key_not_In (keyID : KeyIdentifier_t) :
  is_mc_key keyID = false <-> ~ In keyID [MC_KEY_0; MC_KEY_1; MC_KEY_2; MC_KEY_3].
Proof.
  rewrite <- is_mc_key_In. destruct (is_mc_key keyID); split; congruence.
Qed.

Lemma count_app (kind : Event -> bool) (t u : list Event) :
  count kind (t ++ u) = (count kind t + count kind u)%nat.
Proof. unfold count. now rewrite filter_app, length_app. Qed.

(** ** Key slots *)

(** C7.  The mapping from key identifiers to engine slots is a total
    function (every identifier, enumerated or not, has a slot, and equal
    identifiers have equal slots), and every identifier outside the 23
    enumerated ones is sent to the one slot GP1. *)
Theorem convert_key_id_total_default :
  (forall key_id, exists slot, convert_key_id_from_se_to_lr1110 key_id = slot) /\
  (forall k1 k2, k1 = k2 ->
     convert_key_id_from_se_to_lr1110 k1 = convert_key_id_from_se_to_lr1110 k2) /\
  (forall v, convert_key_id_from_se_to_lr1110 (KEY_ID_OTHER v)
             = LR1110_CRYPTO_KEYS_IDX_GP1).
Proof.
  repeat split.
  - intros key_id. eexists. reflexivity.
  - intros k1 k2 ->. reflexivity.
Qed.

(** ** Key storage *)

Section KeyStorage.

Context {E : Type} {env : Collaborators E}.

Ltac run :=
  unfold bind, ret, lift, lr1110_crypto; simpl.

(** The two engine calls of [SecureElementDeriveAndStoreKey] are made on
    every non-null input, whatever status the derivation leaves: the status
    returned is the one the persist call leaves. *)
Lemma DeriveAndStoreKey_persists_unconditionally
  (w : World E) (version : Z) (input : buffer) (rootKeyID targetKeyID : KeyIdentifier_t) :
  let derive :=
    lr1110_crypto_derive_and_store_key
      (convert_key_id_from_se_to_lr1110 rootKeyID)
      (convert_key_id_from_se_to_lr1110 targetKeyID) input in
  let '(e1, st1, _) := crypto (LR1110 w) derive SECURE_ELEMENT_ERROR in
  let '(e2, st2, _) := crypto e1 lr1110_crypto_store_to_flash st1 in
  SecureElementDeriveAndStoreKey version (Some input) rootKeyID targetKeyID w =
  Returns (st2, {| LR1110 := e2; SeContext := SeContext w;
                   SeNvmCtxChanged := SeNvmCtxChanged w;
                   trace := (trace w ++ [CryptoCall derive]) ++
                            [CryptoCall lr1110_crypto_store_to_flash] |}).
Proof.
  unfold SecureElementDeriveAndStoreKey. run.
  destruct (crypto (LR1110 w) _ SECURE_ELEMENT_ERROR) as [[e1 st1] o1]. simpl.
  destruct (crypto e1 lr1110_crypto_store_to_flash st1) as [[e2 st2] o2].
  reflexivity.
Qed.

(** C6.  [SecureElementSetKey] on supplied key bytes.  For MC_KEY_0..3 the
    bytes are not stored directly: the first call is a derivation from the
    slot of MC_KE_KEY into the slot of the identifier, followed by a persist
    call when the derivation left Success and by no call otherwise.  For every
    other identifier the first call stores the bytes into the slot of the
    identifier, followed by a persist call when the store left Success and by
    no call otherwise.  The status returned is the one the last call left. *)
Theorem SetKey_derive_or_store_then_persist
  (w : World E) (keyID : KeyIdentifier_t) (key : buffer) :
  (In keyID [MC_KEY_0; MC_KEY_1; MC_KEY_2; MC_KEY_3] ->
   forall e1 st1 o1,
     let derive :=
       lr1110_crypto_derive_and_store_key
         (convert_key_id_from_se_to_lr1110 MC_KE_KEY)
         (convert_key_id_from_se_to_lr1110 keyID) key in
     crypto (LR1110 w) derive SECURE_ELEMENT_ERROR = (e1, st1, o1) ->
     (st1 = SECURE_ELEMENT_SUCCESS ->
      forall e2 st2 o2,
        crypto e1 lr1110_crypto_store_to_flash st1 = (e2, st2, o2) ->
        SecureElementSetKey keyID (Some key) w =
        Returns (st2, {| LR1110 := e2; SeContext := SeContext w;
                         SeNvmCtxChanged := SeNvmCtxChanged w;
                         trace := trace w ++
                           [CryptoCall derive;
                            CryptoCall lr1110_crypto_store_to_flash] |})) /\
     (st1 <> SECURE_ELEMENT_SUCCESS ->
      SecureElementSetKey keyID (Some key) w =
      Returns (st1, {| LR1110 := e1; SeContext := SeContext w;
                       SeNvmCtxChanged := SeNvmCtxChanged w;
                       trace := trace w ++ [CryptoCall derive] |}))) /\
  (~ In keyID [MC_KEY_0; MC_KEY_1; MC_KEY_2; MC_KEY_3] ->
   forall e1 st1 o1,
     let store :=
       lr1110_crypto_set_key (convert_key_id_from_se_to_lr1110 keyID) key in
     crypto (LR1110 w) store SECURE_ELEMENT_ERROR = (e1, st1, o1) ->
     (st1 = SECURE_ELEMENT_SUCCESS ->
      forall e2 st2 o2,
        crypto e1 lr1110_crypto_store_to_flash st1 = (e2, st2, o2) ->
        SecureElementSetKey keyID (Some key) w =
        Returns (st2, {| LR1110 := e2; SeContext := SeContext w;
                         SeNvmCtxChanged := SeNvmCtxChanged w;
                         trace := trace w ++
                           [CryptoCall store;
                            CryptoCall lr1110_crypto_store_to_flash] |})) /\
     (st1 <> SECURE_ELEMENT_SUCCESS ->
      SecureElementSetKey keyID (Some key) w =
      Returns (st1, {| LR1110 := e1; SeContext := SeContext w;
                       SeNvmCtxChanged := SeNvmCtxChanged w;
                       trace := trace w ++ [CryptoCall store] |}))).
Proof.
  split.
  - intros Hmc e1 st1 o1 derive Hcall. apply is_mc_key_In in Hmc.
    unfold SecureElementSetKey. rewrite Hmc. subst derive.
    simpl in Hcall. split.
    + intros -> e2 st2 o2 Hstore. run. rewrite Hcall. simpl.
      rewrite Hstore. simpl. now rewrite <- app_assoc.
    + intros Hko. apply is_success_false in Hko. run.
      rewrite Hcall. simpl. now rewrite Hko.
  - intros Hmc e1 st1 o1 store Hcall. apply is_mc_key_not_In in Hmc.
    unfold SecureElementSetKey. rewrite Hmc. subst store.
    simpl in Hcall. split.
    + intros -> e2 st2 o2 Hstore. run. rewrite Hcall. simpl.
      rewrite Hstore. simpl. now rewrite <- app_assoc.
    + intros Hko. apply is_success_false in Hko. run.
      rewrite Hcall. simpl. now rewrite Hko.
Qed.

(** [SecureElementSetKey] with a null key makes no call. *)
Lemma SetKey_null (w : World E) (keyID : KeyIdentifier_t) :
  SecureElementSetKey keyID None w = Returns (SECURE_ELEMENT_ERROR_NPE, w).
Proof. reflexivity. Qed.

End KeyStorage.

(** ** The non-volatile context *)

Section Context_.

Context {cfg : BuildConfig} {E : Type} {env : Collaborators E}.

Ltac run :=
  unfold bind, ret, lift, get_SeContext, set_SeContext, call_SeNvmCtxChanged,
    lr1110_crypto;
  cbn [LR1110 SeContext SeNvmCtxChanged trace DevEui JoinEui Pin].

Lemma SeContext_bytes_length (c : SecureElementNvCtx_t) :
  SeContext_wf c -> length (SeContext_bytes c) = sizeof_SeContext.
Proof.
  intros (Hd & Hj & Hp). unfold SeContext_bytes, sizeof_SeContext.
  rewrite !length_app. lia.
Qed.

Lemma SeContext_of_bytes_wf (b : buffer) :
  length b = sizeof_SeContext -> SeContext_wf (SeContext_of_bytes b).
Proof.
  unfold sizeof_SeContext, SeContext_wf, SeContext_of_bytes.
  cbn [DevEui JoinEui Pin]. intros H.
  rewrite !length_firstn, !length_skipn. lia.
Qed.

Lemma SeContext_bytes_of_bytes (b : buffer) :
  length b = sizeof_SeContext -> SeContext_bytes (SeContext_of_bytes b) = b.
Proof.
  unfold sizeof_SeContext, SeContext_bytes, SeContext_of_bytes.
  cbn [DevEui JoinEui Pin]. intros H.
  rewrite (firstn_all2 (n := SE_PIN_SIZE)) by (rewrite length_skipn; lia).
  rewrite <- skipn_skipn. now rewrite !firstn_skipn.
Qed.

(** A field of the context overwritten in full by [memcpy1]. *)
Lemma memcpy1_field (field src : buffer) (size : nat) :
  length field = size -> (size <= length src)%nat ->
  memcpy1 field 0 (Some src) size = Returns (firstn size src).
Proof.
  intros Hf Hs. rewrite memcpy1_Some by lia. f_equal.
  apply poke_whole. rewrite length_firstn. lia.
Qed.

(** C8.  Each of [SecureElementSetDevEui], [SecureElementSetJoinEui] and
    [SecureElementSetPin], called with a null pointer, returns NullInput and
    leaves the whole world as it was (no callback, context unchanged); called
    on an initialised component with a buffer that holds the field, it
    returns Success, replaces exactly that field by the first bytes of the
    buffer and calls the change callback once, as the last event. *)
Theorem setters_null_or_copy_and_notify (w : World E) :
  (SecureElementSetDevEui None w = Returns (SECURE_ELEMENT_ERROR_NPE, w) /\
   SecureElementSetJoinEui None w = Returns (SECURE_ELEMENT_ERROR_NPE, w) /\
   SecureElementSetPin None w = Returns (SECURE_ELEMENT_ERROR_NPE, w)) /\
  (forall (cb : SecureElementNvmEvent) (src : buffer),
     SeContext_wf (SeContext w) ->
     SeNvmCtxChanged w = Some cb ->
     ((SE_EUI_SIZE <= length src)%nat ->
      SecureElementSetDevEui (Some src) w =
      Returns (SECURE_ELEMENT_SUCCESS,
               {| LR1110 := LR1110 w;
                  SeContext := {| DevEui := firstn SE_EUI_SIZE src;
                                  JoinEui := JoinEui (SeContext w);
                                  Pin := Pin (SeContext w) |};
                  SeNvmCtxChanged := Some cb;
                  trace := trace w ++ [NvmCtxChanged cb] |})) /\
     ((SE_EUI_SIZE <= length src)%nat ->
      SecureElementSetJoinEui (Some src) w =
      Returns (SECURE_ELEMENT_SUCCESS,
               {| LR1110 := LR1110 w;
                  SeContext := {| DevEui := DevEui (SeContext w);
                                  JoinEui := firstn SE_EUI_SIZE src;
                                  Pin := Pin (SeContext w) |};
                  SeNvmCtxChanged := Some cb;
                  trace := trace w ++ [NvmCtxChanged cb] |})) /\
     ((SE_PIN_SIZE <= length src)%nat ->
      SecureElementSetPin (Some src) w =
      Returns (SECURE_ELEMENT_SUCCESS,
               {| LR1110 := LR1110 w;
                  SeContext := {| DevEui := DevEui (SeContext w);
                                  JoinEui := JoinEui (SeContext w);
                                  Pin := firstn SE_PIN_SIZE src |};
                  SeNvmCtxChanged := Some cb;
                  trace := trace w ++ [NvmCtxChanged cb] |}))).
Proof.
  split; [repeat split|].
  intros cb src (Hd & Hj & Hp) Hcb. repeat split; intros Hsrc.
  - unfold SecureElementSetDevEui. run.
    rewrite (memcpy1_field _ _ _ Hd Hsrc). now rewrite Hcb.
  - unfold SecureElementSetJoinEui. run.
    rewrite (memcpy1_field _ _ _ Hj Hsrc). now rewrite Hcb.
  - unfold SecureElementSetPin. run.
    rewrite (memcpy1_field _ _ _ Hp Hsrc). now rewrite Hcb.
Qed.

(** C9.  [SecureElementRestoreNvmCtx] on a blob of the size of the context,
    followed by [SecureElementGetNvmCtx]: the restore returns, and the
    snapshot holds exactly the bytes of the blob and reports the size of the
    context, which is the length of the blob. *)
Theorem RestoreNvmCtx_GetNvmCtx_roundtrip
  (w : World E) (blob : buffer) (cell : Z) :
  SeContext_wf (SeContext w) ->
  length blob = sizeof_SeContext ->
  exists status w',
    SecureElementRestoreNvmCtx (Some blob) w = Returns (status, w') /\
    SecureElementGetNvmCtx (Some cell) w' =
      Returns ((Z.of_nat sizeof_SeContext, blob), w') /\
    Z.of_nat sizeof_SeContext = Z.of_nat (length blob).
Proof.
  intros Hwf Hlen.
  unfold SecureElementRestoreNvmCtx, SecureElementGetNvmCtx. run.
  destruct (crypto (LR1110 w) lr1110_crypto_restore_from_flash
              LR1110_CRYPTO_STATUS_ERROR) as [[e st] o] eqn:Hcall.
  rewrite memcpy1_Some
    by (rewrite ?SeContext_bytes_length by assumption; lia).
  rewrite poke_whole
    by (rewrite length_firstn, SeContext_bytes_length by assumption; lia).
  rewrite <- Hlen, firstn_all.
  do 2 eexists. split; [reflexivity|].
  cbn [LR1110 SeContext SeNvmCtxChanged trace].
  rewrite SeContext_bytes_of_bytes by assumption.
  rewrite Hlen. auto.
Qed.

(** [SecureElementInit] leaves the callback pointer assigned: to the
    caller's function, or to [DummyCB] for a null argument. *)
Lemma Init_assigns_callback
  (w w' : World E) (seNvmCtxChanged : option nat) (status : SecureElementStatus_t) :
  SecureElementInit seNvmCtxChanged w = Returns (status, w') ->
  SeNvmCtxChanged w' =
  Some (match seNvmCtxChanged with
        | Some handler => UserNvmEvent handler
        | None => DummyCB
        end).
Proof.
  unfold SecureElementInit, assign_SeNvmCtxChanged, board_read. run.
  destruct (crypto (LR1110 w) _ _) as [[e st] o]. simpl.
  destruct SECURE_ELEMENT_PRE_PROVISIONED.
  - repeat (match goal with
            | |- context [board ?e ?r] => destruct (board e r) as [? ?]; simpl
            | |- context [written ?a ?b ?c] => destruct (written a b c); simpl
            end; try discriminate).
    intros H. injection H as _ <-. reflexivity.
  - destruct (STATIC_DEVICE_EUI =? 0); simpl.
    + destruct (board e _) as [e' uid]. simpl.
      destruct (written _ _ _); simpl; try discriminate.
      intros H. injection H as _ <-. reflexivity.
    + intros H. injection H as _ <-. reflexivity.
Qed.

End Context_.

(** ** Join-accept processing *)

Section JoinAccept.

Context {cfg : BuildConfig} {E : Type} {env : Collaborators E}.

Ltac run :=
  unfold bind, ret, lift, lr1110_crypto;
  cbn [LR1110 SeContext SeNvmCtxChanged trace].

Lemma devNonce_bytes (d : Z) :
  Z.land d 0xFF = d mod 256 /\ Z.land (Z.shiftr d 8) 0xFF = (d / 256) mod 256.
Proof.
  change 0xFF with (Z.ones 8). rewrite !Z.land_ones by lia.
  rewrite Z.shiftr_div_pow2 by lia. split; reflexivity.
Qed.

Lemma enc_key_slot (joinReqType : Z) :
  convert_key_id_from_se_to_lr1110
    (if negb (joinReqType =? JOIN_REQ) then J_S_ENC_KEY else NWK_KEY)
  = dec_key_slot joinReqType.
Proof. unfold dec_key_slot. now destruct (joinReqType =? JOIN_REQ). Qed.

(** The 1.1.x block, run: one engine call with the header of the spec, then
    the bit check when the call left Success. *)
Lemma ProcessJoinAccept_1_1_x_run
  (w : World E) (joinReqType : Z) (je : buffer) (devNonce : Z) (enc : buffer)
  (size : Z) (status : SecureElementStatus_t) (dec : buffer)
  (versionMinor : option Z) (e2 : E) (st2 : SecureElementStatus_t)
  (plain2 : list Z) :
  USE_LRWAN_1_1_X_CRYPTO = 1 ->
  (8 <= length je)%nat ->
  crypto (LR1110 w) (trial_1_1_x joinReqType je devNonce enc size) status
    = (e2, st2, plain2) ->
  (1 + length plain2 <= length dec)%nat ->
  ProcessJoinAccept_1_1_x joinReqType (Some je) devNonce enc size
    (if negb (joinReqType =? JOIN_REQ) then J_S_ENC_KEY else NWK_KEY)
    status (Some dec) versionMinor w =
  let w2 := after_call w e2 (trial_1_1_x joinReqType je devNonce enc size) in
  let dec2 := poke dec 1 plain2 in
  if is_success st2 then
    match version_bit dec2 with
    | Some true =>
        Returns ({| ja_status := SECURE_ELEMENT_SUCCESS;
                    ja_decJoinAccept := Some dec2;
                    ja_versionMinor := Some 1 |}, w2)
    | Some false =>
        Returns ({| ja_status := st2;
                    ja_decJoinAccept := Some dec2;
                    ja_versionMinor := Some 0 |}, w2)
    | None => Undefined
    end
  else
    Returns ({| ja_status := st2;
                ja_decJoinAccept := Some dec2;
                ja_versionMinor := versionMinor |}, w2).
Proof.
  intros Huse Hje Hcall Hroom.
  unfold ProcessJoinAccept_1_1_x. rewrite Huse. rewrite enc_key_slot.
  unfold trial_1_1_x, spec_mic_header_1_1_x in *.
  destruct (devNonce_bytes devNonce) as [Hlo Hhi].
  rewrite Hlo, Hhi. clear Hlo Hhi.
  set (lo := devNonce mod 256) in *. set (hi := (devNonce / 256) mod 256) in *.
  set (jrt := joinReqType mod 256) in *. set (len := size - 1) in *.
  set (body := skipn 1 enc) in *. clearbody lo hi jrt len body.
  do 8 (destruct je as [|? je]; [simpl in Hje; lia|]).
  pose proof (written_Some dec 1 plain2 Hroom) as Hdec.
  set (dec2 := poke dec 1 plain2) in *. clearbody dec2.
  cbn in Hcall. run. cbn. rewrite Hcall. rewrite Hdec.
  unfold after_call, version_bit, deref, array_get.
  destruct (is_success st2); [|reflexivity].
  destruct (nth_error dec2 11) as [b|]; [|reflexivity].
  destruct (Z.land b 128 =? 128); reflexivity.
Qed.

(** The function up to the end of the 1.0.x trial, run: on present pointers
    and a size within the maximum there is one engine call, then the bit
    check when the call left Success; every path that does not return
    enters the 1.1.x block. *)
Lemma ProcessJoinAccept_1_0_x_run
  (w : World E) (joinReqType : Z) (joinEui : option buffer) (devNonce : Z)
  (enc : buffer) (size : Z) (dec : buffer) (vm : Z) (e1 : E)
  (st1 : SecureElementStatus_t) (plain1 : list Z) :
  size <= LORAMAC_JOIN_ACCEPT_FRAME_MAX_SIZE ->
  crypto (LR1110 w) (trial_1_0_x joinReqType enc size) SECURE_ELEMENT_ERROR
    = (e1, st1, plain1) ->
  (1 + length plain1 <= length dec)%nat ->
  SecureElementProcessJoinAccept joinReqType joinEui devNonce (Some enc) size
    (Some dec) (Some vm) w =
  let w1 := after_call w e1 (trial_1_0_x joinReqType enc size) in
  let dec1 := poke dec 1 plain1 in
  let encKeyID :=
    if negb (joinReqType =? JOIN_REQ) then J_S_ENC_KEY else NWK_KEY in
  if is_success st1 then
    match version_bit dec1 with
    | Some false =>
        Returns ({| ja_status := SECURE_ELEMENT_SUCCESS;
                    ja_decJoinAccept := Some dec1;
                    ja_versionMinor := Some 0 |}, w1)
    | Some true =>
        ProcessJoinAccept_1_1_x joinReqType joinEui devNonce enc size
          encKeyID st1 (Some dec1) (Some 1) w1
    | None => Undefined
    end
  else
    ProcessJoinAccept_1_1_x joinReqType joinEui devNonce enc size
      encKeyID st1 (Some dec1) (Some vm) w1.
Proof.
  intros Hsize Hcall Hroom.
  unfold SecureElementProcessJoinAccept.
  replace (size >? LORAMAC_JOIN_ACCEPT_FRAME_MAX_SIZE) with false
    by (symmetry; rewrite Z.gtb_ltb; apply Z.ltb_ge; lia).
  rewrite enc_key_slot. unfold trial_1_0_x in *.
  pose proof (written_Some dec 1 plain1 Hroom) as Hdec.
  set (dec1 := poke dec 1 plain1) in *. clearbody dec1.
  run. cbn [convert_key_id_from_se_to_lr1110]. rewrite Hcall. rewrite Hdec.
  unfold after_call, version_bit, deref, array_get.
  destruct (is_success st1); [|reflexivity].
  destruct (nth_error dec1 11) as [b|]; [|reflexivity].
  destruct (Z.land b 128 =? 128); reflexivity.
Qed.

(** C1.  On present pointers and a size within the maximum, when the engine
    leaves Success on the 1.0.x trial (decryption key by request type, MIC
    key NwkKey, version tag 0, MIC header the single byte 0x20) and bit 0x80
    of byte 11 of the decrypted frame is clear, the function returns Success
    with [*versionMinor = 0] and the decrypted frame, and that trial is the
    only engine call it makes: the trace grows by that one call. *)
Theorem ProcessJoinAccept_v1_0_x_accepted
  (w : World E) (joinReqType : Z) (joinEui : option buffer) (devNonce : Z)
  (enc : buffer) (size : Z) (dec : buffer) (vm : Z) (e1 : E)
  (plain1 : list Z) :
  size <= LORAMAC_JOIN_ACCEPT_FRAME_MAX_SIZE ->
  crypto (LR1110 w) (trial_1_0_x joinReqType enc size) SECURE_ELEMENT_ERROR
    = (e1, SECURE_ELEMENT_SUCCESS, plain1) ->
  (1 + length plain1 <= length dec)%nat ->
  version_bit (poke dec 1 plain1) = Some false ->
  exists w',
    SecureElementProcessJoinAccept joinReqType joinEui devNonce (Some enc) size
      (Some dec) (Some vm) w =
    Returns ({| ja_status := SECURE_ELEMENT_SUCCESS;
                ja_decJoinAccept := Some (poke dec 1 plain1);
                ja_versionMinor := Some 0 |}, w') /\
    trace w' =
      trace w ++
      [CryptoCall
         (lr1110_crypto_process_join_accept
            (dec_key_slot joinReqType)
            (convert_key_id_from_se_to_lr1110 NWK_KEY) 0 [0x20]
            (skipn 1 enc) (size - 1))] /\
    count is_process_join_accept (trace w') =
      S (count is_process_join_accept (trace w)).
Proof.
  intros Hsize Hcall Hroom Hbit.
  rewrite (ProcessJoinAccept_1_0_x_run _ _ _ _ _ _ _ _ _ _ _ Hsize Hcall Hroom).
  cbv zeta. cbn [is_success]. rewrite Hbit.
  eexists. split; [reflexivity|]. split; [reflexivity|].
  unfold after_call. cbn [trace]. rewrite count_app.
  unfold count at 2. cbn. lia.
Qed.

(** C2.  With the 1.1.x trial compiled in, present pointers, a JoinEUI of at
    least 8 bytes and a size within the maximum: when the 1.0.x trial leaves
    a failure status, or leaves Success with bit 0x80 of byte 11 set, and the
    engine then leaves Success on the 1.1.x trial with that bit set, the
    function returns Success with [*versionMinor = 1] after exactly two engine
    calls.  The second call has JSIntKey as MIC key, version tag 1 and the MIC
    header of the spec: request-type byte, JoinEUI reversed, DevNonce as two
    little-endian bytes, 0x20. *)
Theorem ProcessJoinAccept_v1_1_x_accepted
  (w : World E) (joinReqType : Z) (je : buffer) (devNonce : Z)
  (enc : buffer) (size : Z) (dec : buffer) (vm : Z) (e1 e2 : E)
  (st1 : SecureElementStatus_t) (plain1 plain2 : list Z) :
  USE_LRWAN_1_1_X_CRYPTO = 1 ->
  size <= LORAMAC_JOIN_ACCEPT_FRAME_MAX_SIZE ->
  (8 <= length je)%nat ->
  crypto (LR1110 w) (trial_1_0_x joinReqType enc size) SECURE_ELEMENT_ERROR
    = (e1, st1, plain1) ->
  (1 + length plain1 <= length dec)%nat ->
  (st1 <> SECURE_ELEMENT_SUCCESS \/
   version_bit (poke dec 1 plain1) = Some true) ->
  crypto e1 (trial_1_1_x joinReqType je devNonce enc size) st1
    = (e2, SECURE_ELEMENT_SUCCESS, plain2) ->
  (1 + length plain2 <= length dec)%nat ->
  version_bit (poke (poke dec 1 plain1) 1 plain2) = Some true ->
  exists w',
    SecureElementProcessJoinAccept joinReqType (Some je) devNonce (Some enc)
      size (Some dec) (Some vm) w =
    Returns ({| ja_status := SECURE_ELEMENT_SUCCESS;
                ja_decJoinAccept := Some (poke (poke dec 1 plain1) 1 plain2);
                ja_versionMinor := Some 1 |}, w') /\
    trace w' =
      trace w ++
      [CryptoCall (trial_1_0_x joinReqType enc size);
       CryptoCall
         (lr1110_crypto_process_join_accept
            (dec_key_slot joinReqType)
            (convert_key_id_from_se_to_lr1110 J_S_INT_KEY) 1
            ([joinReqType mod 256] ++ rev (firstn 8 je) ++
             [devNonce mod 256; (devNonce / 256) mod 256] ++ [0x20])
            (skipn 1 enc) (size - 1))] /\
    count is_process_join_accept (trace w') =
      S (S (count is_process_join_accept (trace w))).
Proof.
  intros Huse Hsize Hje Hcall1 Hroom1 Hfirst Hcall2 Hroom2 Hbit2.
  rewrite (ProcessJoinAccept_1_0_x_run _ _ _ _ _ _ _ _ _ _ _ Hsize Hcall1 Hroom1).
  cbv zeta.
  assert (Hroom2' : (1 + length plain2 <= length (poke dec 1 plain1))%nat)
    by (rewrite poke_length; assumption).
  assert (Hrun : forall minor,
    ProcessJoinAccept_1_1_x joinReqType (Some je) devNonce enc size
      (if negb (joinReqType =? JOIN_REQ) then J_S_ENC_KEY else NWK_KEY)
      st1 (Some (poke dec 1 plain1)) minor
      (after_call w e1 (trial_1_0_x joinReqType enc size)) =
    Returns ({| ja_status := SECURE_ELEMENT_SUCCESS;
                ja_decJoinAccept := Some (poke (poke dec 1 plain1) 1 plain2);
                ja_versionMinor := Some 1 |},
             after_call (after_call w e1 (trial_1_0_x joinReqType enc size)) e2
               (trial_1_1_x joinReqType je devNonce enc size))).
  { intros minor.
    rewrite (ProcessJoinAccept_1_1_x_run
               (after_call w e1 (trial_1_0_x joinReqType enc size))
               _ _ _ _ _ _ _ _ _ _ _ Huse Hje Hcall2 Hroom2').
    cbv zeta. cbn [is_success]. now rewrite Hbit2. }
  exists (after_call (after_call w e1 (trial_1_0_x joinReqType enc size)) e2
            (trial_1_1_x joinReqType je devNonce enc size)).
  split; [|split].
  - destruct (is_success st1) eqn:Hst1.
    + destruct Hfirst as [Hko | Hbit1].
      * apply is_success_false in Hko. congruence.
      * rewrite Hbit1. apply Hrun.
    + apply Hrun.
  - unfold after_call. cbn [trace]. rewrite <- app_assoc. reflexivity.
  - unfold after_call. cbn [trace]. rewrite !count_app.
    unfold count at 2 3. cbn. lia.
Qed.

(** C10.  With the 1.1.x trial compiled in: when the 1.0.x trial leaves
    Success with bit 0x80 of byte 11 set, the function goes on to the 1.1.x
    trial.  If that trial leaves Success but the bit then reads clear, the
    function returns the last engine status, which is Success, with
    [*versionMinor = 0]; if that trial leaves a failure status, the function
    returns that status with [*versionMinor = 1], the value written by the
    1.0.x trial that did not return. *)
Theorem ProcessJoinAccept_success_without_consistent_bit
  (w : World E) (joinReqType : Z) (je : buffer) (devNonce : Z)
  (enc : buffer) (size : Z) (dec : buffer) (vm : Z) (e1 e2 : E)
  (st2 : SecureElementStatus_t) (plain1 plain2 : list Z) :
  USE_LRWAN_1_1_X_CRYPTO = 1 ->
  size <= LORAMAC_JOIN_ACCEPT_FRAME_MAX_SIZE ->
  (8 <= length je)%nat ->
  crypto (LR1110 w) (trial_1_0_x joinReqType enc size) SECURE_ELEMENT_ERROR
    = (e1, SECURE_ELEMENT_SUCCESS, plain1) ->
  (1 + length plain1 <= length dec)%nat ->
  version_bit (poke dec 1 plain1) = Some true ->
  crypto e1 (trial_1_1_x joinReqType je devNonce enc size)
    SECURE_ELEMENT_SUCCESS = (e2, st2, plain2) ->
  (1 + length plain2 <= length dec)%nat ->
  let w2 :=
    after_call (after_call w e1 (trial_1_0_x joinReqType enc size)) e2
      (trial_1_1_x joinReqType je devNonce enc size) in
  let dec2 := poke (poke dec 1 plain1) 1 plain2 in
  let run :=
    SecureElementProcessJoinAccept joinReqType (Some je) devNonce (Some enc)
      size (Some dec) (Some vm) w in
  (st2 = SECURE_ELEMENT_SUCCESS -> version_bit dec2 = Some false ->
   run = Returns ({| ja_status := SECURE_ELEMENT_SUCCESS;
                     ja_decJoinAccept := Some dec2;
                     ja_versionMinor := Some 0 |}, w2)) /\
  (st2 <> SECURE_ELEMENT_SUCCESS ->
   run = Returns ({| ja_status := st2;
                     ja_decJoinAccept := Some dec2;
                     ja_versionMinor := Some 1 |}, w2)).
Proof.
  intros Huse Hsize Hje Hcall1 Hroom1 Hbit1 Hcall2 Hroom2 w2 dec2 run.
  subst run.
  rewrite (ProcessJoinAccept_1_0_x_run _ _ _ _ _ _ _ _ _ _ _ Hsize Hcall1 Hroom1).
  cbv zeta. cbn [is_success]. rewrite Hbit1.
  assert (Hroom2' : (1 + length plain2 <= length (poke dec 1 plain1))%nat)
    by (rewrite poke_length; assumption).
  rewrite (ProcessJoinAccept_1_1_x_run
             (after_call w e1 (trial_1_0_x joinReqType enc size))
             _ _ _ _ _ _ _ _ _ _ _ Huse Hje Hcall2 Hroom2').
  cbv zeta. fold dec2 w2. split.
  - intros -> Hbit2. cbn [is_success]. now rewrite Hbit2.
  - intros Hko. apply is_success_false in Hko. now rewrite Hko.
Qed.

(** The two tests at the head of the function, in their order.  When
    [encJoinAccept], [decJoinAccept] or [versionMinor] is null the function
    returns NullInput; when the three are present and the size exceeds the
    maximum it returns BufferTooLarge.  In both cases nothing is written and
    the world is as before: no engine call is made. *)
Lemma ProcessJoinAccept_input_validation
  (w : World E) (joinReqType : Z) (joinEui : option buffer) (devNonce : Z)
  (encJoinAccept : option buffer) (size : Z) (decJoinAccept : option buffer)
  (versionMinor : option Z) :
  (encJoinAccept = None \/ decJoinAccept = None \/ versionMinor = None ->
   SecureElementProcessJoinAccept joinReqType joinEui devNonce encJoinAccept
     size decJoinAccept versionMinor w =
   Returns ({| ja_status := SECURE_ELEMENT_ERROR_NPE;
               ja_decJoinAccept := decJoinAccept;
               ja_versionMinor := versionMinor |}, w)) /\
  (encJoinAccept <> None -> decJoinAccept <> None -> versionMinor <> None ->
   size > LORAMAC_JOIN_ACCEPT_FRAME_MAX_SIZE ->
   SecureElementProcessJoinAccept joinReqType joinEui devNonce encJoinAccept
     size decJoinAccept versionMinor w =
   Returns ({| ja_status := SECURE_ELEMENT_ERROR_BUF_SIZE;
               ja_decJoinAccept := decJoinAccept;
               ja_versionMinor := versionMinor |}, w)).
Proof.
  unfold SecureElementProcessJoinAccept. split.
  - intros H.
    destruct encJoinAccept, decJoinAccept, versionMinor; try reflexivity.
    destruct H as [H | [H | H]]; discriminate H.
  - intros He Hd Hv Hsize.
    destruct encJoinAccept; [|congruence].
    destruct decJoinAccept; [|congruence].
    destruct versionMinor; [|congruence].
    replace (size >? LORAMAC_JOIN_ACCEPT_FRAME_MAX_SIZE) with true
      by (symmetry; rewrite Z.gtb_ltb; apply Z.ltb_lt; lia).
    reflexivity.
Qed.

End JoinAccept.

(** ** CMAC over a prefixed MIC block *)

Section Cmac.

Context {E : Type} {env : Collaborators E}.

Lemma skipn_repeat_same (x : Z) (k n : nat) :
  skipn k (repeat x n) = repeat x (n - k).
Proof.
  revert n. induction k as [|k IH]; intros n.
  - now rewrite Nat.sub_0_r.
  - destruct n as [|n]; [reflexivity|]. simpl. apply IH.
Qed.

Lemma poke_front (dst data : buffer) :
  poke dst 0 data = data ++ skipn (length data) dst.
Proof. reflexivity. Qed.

Lemma poke_after (a b data : buffer) (off : nat) :
  off = length a -> poke (a ++ b) off data = a ++ poke b 0 data.
Proof.
  intros ->. unfold poke.
  rewrite firstn_app, Nat.sub_diag, firstn_all, skipn_app.
  rewrite skipn_all2 by lia.
  replace (length a + length data - length a)%nat with (length data) by lia.
  cbn [firstn app Nat.add]. now rewrite app_nil_r.
Qed.

(** The scratch buffer after the [memset1] and the two [memcpy1]: the MIC
    block, the payload, and zeros up to its 272 bytes. *)
Lemma micBuff_filled (mic payload : buffer) (n : nat) :
  (MIC_BLOCK_BX_SIZE <= length mic)%nat ->
  (n <= CRYPTO_MAXMESSAGE_SIZE)%nat ->
  (n <= length payload)%nat ->
  poke (poke (repeat 0 CRYPTO_BUFFER_SIZE) 0 (firstn MIC_BLOCK_BX_SIZE mic))
       MIC_BLOCK_BX_SIZE (firstn n payload) =
  firstn MIC_BLOCK_BX_SIZE mic ++ firstn n payload ++
  repeat 0 (CRYPTO_MAXMESSAGE_SIZE - n).
Proof.
  intros Hmic Hn Hp.
  assert (Hm : length (firstn MIC_BLOCK_BX_SIZE mic) = MIC_BLOCK_BX_SIZE)
    by (rewrite length_firstn; lia).
  assert (Hf : length (firstn n payload) = n)
    by (rewrite length_firstn; lia).
  rewrite poke_front, Hm, skipn_repeat_same.
  rewrite poke_after by (symmetry; exact Hm).
  rewrite poke_front, Hf, skipn_repeat_same.
  reflexivity.
Qed.

(** The block, run: with a MIC block of at least 16 bytes and a payload of
    [size] bytes, [size] at most 256, [micBuff] ends up holding the MIC
    block, the payload and zeros, and [localSize] is [size + 16]. *)
Lemma ComputeAesCmac_micBuff_filled (mic payload : buffer) (size : Z) :
  (16 <= length mic)%nat ->
  0 <= size <= 256 ->
  (Z.to_nat size <= length payload)%nat ->
  ComputeAesCmac_micBuff (Some mic) (Some payload) size =
  Returns (size + 16,
           spec_cmac_message mic payload size ++
           repeat 0 (CRYPTO_MAXMESSAGE_SIZE - Z.to_nat size)).
Proof.
  intros Hmic Hsize Hpay.
  assert (Hn : (Z.to_nat size <= CRYPTO_MAXMESSAGE_SIZE)%nat)
    by (unfold CRYPTO_MAXMESSAGE_SIZE; lia).
  unfold ComputeAesCmac_micBuff, memset1.
  rewrite repeat_length, Nat.leb_refl.
  rewrite poke_whole by reflexivity.
  assert (Hb0 : length (repeat 0 CRYPTO_BUFFER_SIZE) = 272%nat)
    by (now rewrite repeat_length).
  assert (Hm : length (firstn MIC_BLOCK_BX_SIZE mic) = 16%nat)
    by (rewrite length_firstn; unfold MIC_BLOCK_BX_SIZE; lia).
  assert (Hb1 : length (poke (repeat 0 CRYPTO_BUFFER_SIZE) 0
                          (firstn MIC_BLOCK_BX_SIZE mic)) = 272%nat)
    by (rewrite poke_length; lia).
  rewrite memcpy1_Some by (unfold MIC_BLOCK_BX_SIZE; lia).
  rewrite memcpy1_Some
    by (unfold MIC_BLOCK_BX_SIZE, CRYPTO_MAXMESSAGE_SIZE in *; lia).
  rewrite micBuff_filled by assumption.
  replace ((size + Z.of_nat MIC_BLOCK_BX_SIZE) mod 65536) with (size + 16)
    by (unfold MIC_BLOCK_BX_SIZE; rewrite Z.mod_small; lia).
  unfold spec_cmac_message, MIC_BLOCK_BX_SIZE. now rewrite <- app_assoc.
Qed.


End Cmac.

(** ** Concrete runs *)

(** C3.  A run of [SecureElementDeriveAndStoreKey] in which the derivation
    fails (the engine leaves code 1): the persist call is made all the same,
    and the status returned is the Success that the persist call leaves. *)
Theorem DeriveAndStoreKey_persists_after_failed_derivation :
  SecureElementDeriveAndStoreKey (env := scripted) 0 (Some (repeat 0 16))
    NWK_KEY APP_S_KEY
    (world_of [(SECURE_ELEMENT_ENGINE_CODE 1, []); (SECURE_ELEMENT_SUCCESS, [])])
  = Returns (SECURE_ELEMENT_SUCCESS,
             {| LR1110 := [];
                SeContext := SeContext (world_of []);
                SeNvmCtxChanged := Some DummyCB;
                trace :=
                  [CryptoCall
                     (lr1110_crypto_derive_and_store_key
                        LR1110_CRYPTO_KEYS_IDX_NWK_KEY
                        LR1110_CRYPTO_KEYS_IDX_APP_S_KEY (repeat 0 16));
                   CryptoCall lr1110_crypto_store_to_flash] |}).
Proof. reflexivity. Qed.

(** The sibling path: [SecureElementSetKey] on the same engine stops after a
    failed derivation and returns the failure. *)
Example SetKey_stops_after_failed_derivation :
  SecureElementSetKey (env := scripted) MC_KEY_0 (Some (repeat 0 16))
    (world_of [(SECURE_ELEMENT_ENGINE_CODE 1, []); (SECURE_ELEMENT_SUCCESS, [])])
  = Returns (SECURE_ELEMENT_ENGINE_CODE 1,
             {| LR1110 := [(SECURE_ELEMENT_SUCCESS, [])];
                SeContext := SeContext (world_of []);
                SeNvmCtxChanged := Some DummyCB;
                trace :=
                  [CryptoCall
                     (lr1110_crypto_derive_and_store_key
                        LR1110_CRYPTO_KEYS_IDX_GP_KE_KEY_4
                        LR1110_CRYPTO_KEYS_IDX_GP_KE_KEY_0 (repeat 0 16))] |}).
Proof. reflexivity. Qed.


(** C5.  Runs of [SecureElementProcessJoinAccept] with a null [joinEui],
    the three other pointers present and the size within the maximum.  On a
    frame that the 1.0.x trial accepts the function returns Success; on a
    frame that the 1.0.x trial rejects it goes on to the 1.1.x trial and
    reads through the null pointer.  Neither run returns NullInput. *)
Theorem ProcessJoinAccept_null_joinEui_not_rejected :
  SecureElementProcessJoinAccept (cfg := stack_config) (env := scripted)
    0xFF None 0x1234 (Some frame17) 17 (Some (repeat 0 17)) (Some 7)
    (world_of [(SECURE_ELEMENT_SUCCESS, body_v10)])
  = Returns ({| ja_status := SECURE_ELEMENT_SUCCESS;
                ja_decJoinAccept := Some (0 :: body_v10);
                ja_versionMinor := Some 0 |},
             after_call (world_of []) []
               (trial_1_0_x (cfg := stack_config) 0xFF frame17 17)) /\
  SecureElementProcessJoinAccept (cfg := stack_config) (env := scripted)
    0xFF None 0x1234 (Some frame17) 17 (Some (repeat 0 17)) (Some 7)
    (world_of [(SECURE_ELEMENT_ENGINE_CODE 1, [])])
  = Undefined.
Proof.
  split; reflexivity.
Qed.

(** ** The theorems at concrete inputs *)

(** The 1.0.x theorem on a 17-byte frame that the engine accepts with the
    version bit clear. *)
Lemma ProcessJoinAccept_v1_0_x_accepted_frame17 :
  exists w',
    SecureElementProcessJoinAccept (cfg := stack_config) (env := scripted)
      0xFF (Some eui8) 0x1234 (Some frame17) 17 (Some (repeat 0 17)) (Some 7)
      (world_of [(SECURE_ELEMENT_SUCCESS, body_v10)])
    = Returns ({| ja_status := SECURE_ELEMENT_SUCCESS;
                  ja_decJoinAccept := Some (0 :: body_v10);
                  ja_versionMinor := Some 0 |}, w') /\
    count is_process_join_accept (trace w') = 1%nat.
Proof.
  destruct (ProcessJoinAccept_v1_0_x_accepted (cfg := stack_config)
              (env := scripted)
              (world_of [(SECURE_ELEMENT_SUCCESS, body_v10)])
              0xFF (Some eui8) 0x1234 frame17 17 (repeat 0 17) 7 [] body_v10)
    as (w' & Hrun & _ & Hcount).
  - simpl. lia.
  - reflexivity.
  - simpl. lia.
  - reflexivity.
  - exists w'. split; [exact Hrun | exact Hcount].
Defined.

(** The 1.1.x theorem on a 17-byte frame that the engine rejects under
    1.0.x and accepts under 1.1.x with the version bit set. *)
Lemma ProcessJoinAccept_v1_1_x_accepted_frame17 :
  exists w',
    SecureElementProcessJoinAccept (cfg := stack_config) (env := scripted)
      0xFF (Some eui8) 0x1234 (Some frame17) 17 (Some (repeat 0 17)) (Some 7)
      (world_of [(SECURE_ELEMENT_ENGINE_CODE 1, []);
                 (SECURE_ELEMENT_SUCCESS, body_v11)])
    = Returns ({| ja_status := SECURE_ELEMENT_SUCCESS;
                  ja_decJoinAccept := Some (0 :: body_v11);
                  ja_versionMinor := Some 1 |}, w') /\
    count is_process_join_accept (trace w') = 2%nat.
Proof.
  destruct (ProcessJoinAccept_v1_1_x_accepted (cfg := stack_config)
              (env := scripted)
              (world_of [(SECURE_ELEMENT_ENGINE_CODE 1, []);
                         (SECURE_ELEMENT_SUCCESS, body_v11)])
              0xFF eui8 0x1234 frame17 17 (repeat 0 17) 7
              [(SECURE_ELEMENT_SUCCESS, body_v11)] []
              (SECURE_ELEMENT_ENGINE_CODE 1) [] body_v11)
    as (w' & Hrun & _ & Hcount).
  - reflexivity.
  - simpl. lia.
  - simpl. lia.
  - reflexivity.
  - simpl. lia.
  - left. discriminate.
  - reflexivity.
  - simpl. lia.
  - reflexivity.
  - exists w'. split; [exact Hrun | exact Hcount].
Defined.

(** The theorem on the two trials that disagree, on a frame whose 1.0.x
    plaintext has the bit set and whose 1.1.x plaintext has it clear, and on
    a frame that the 1.1.x trial rejects. *)
Lemma ProcessJoinAccept_success_without_consistent_bit_frame17 :
  (exists w',
     SecureElementProcessJoinAccept (cfg := stack_config) (env := scripted)
       0xFF (Some eui8) 0x1234 (Some frame17) 17 (Some (repeat 0 17)) (Some 7)
       (world_of [(SECURE_ELEMENT_SUCCESS, body_v11);
                  (SECURE_ELEMENT_SUCCESS, body_v10)])
     = Returns ({| ja_status := SECURE_ELEMENT_SUCCESS;
                   ja_decJoinAccept := Some (0 :: body_v10);
                   ja_versionMinor := Some 0 |}, w')) /\
  (exists w',
     SecureElementProcessJoinAccept (cfg := stack_config) (env := scripted)
       0xFF (Some eui8) 0x1234 (Some frame17) 17 (Some (repeat 0 17)) (Some 7)
       (world_of [(SECURE_ELEMENT_SUCCESS, body_v11);
                  (SECURE_ELEMENT_ENGINE_CODE 1, [])])
     = Returns ({| ja_status := SECURE_ELEMENT_ENGINE_CODE 1;
                   ja_decJoinAccept := Some (0 :: body_v11);
                   ja_versionMinor := Some 1 |}, w')).
Proof.
  split.
  - destruct (ProcessJoinAccept_success_without_consistent_bit
                (cfg := stack_config) (env := scripted)
                (world_of [(SECURE_ELEMENT_SUCCESS, body_v11);
                           (SECURE_ELEMENT_SUCCESS, body_v10)])
                0xFF eui8 0x1234 frame17 17 (repeat 0 17) 7
                [(SECURE_ELEMENT_SUCCESS, body_v10)] []
                SECURE_ELEMENT_SUCCESS body_v11 body_v10)
      as [Hclear _].
    + reflexivity.
    + simpl. lia.
    + simpl. lia.
    + reflexivity.
    + simpl. lia.
    + reflexivity.
    + reflexivity.
    + simpl. lia.
    + eexists. exact (Hclear eq_refl eq_refl).
  - destruct (ProcessJoinAccept_success_without_consistent_bit
                (cfg := stack_config) (env := scripted)
                (world_of [(SECURE_ELEMENT_SUCCESS, body_v11);
                           (SECURE_ELEMENT_ENGINE_CODE 1, [])])
                0xFF eui8 0x1234 frame17 17 (repeat 0 17) 7
                [(SECURE_ELEMENT_ENGINE_CODE 1, [])] []
                (SECURE_ELEMENT_ENGINE_CODE 1) body_v11 [])
      as [_ Hfail].
    + reflexivity.
    + simpl. lia.
    + simpl. lia.
    + reflexivity.
    + simpl. lia.
    + reflexivity.
    + reflexivity.
    + simpl. lia.
    + eexists. apply Hfail. discriminate.
Defined.

(** The key-storage theorem on the four paths: a multicast key whose
    derivation succeeds and one whose derivation fails, another key whose
    store succeeds and one whose store fails. *)
Lemma SetKey_derive_or_store_then_persist_runs :
  (SecureElementSetKey (env := scripted) MC_KEY_2 (Some (repeat 5 16))
     (world_of [(SECURE_ELEMENT_SUCCESS, []); (SECURE_ELEMENT_SUCCESS, [])])
   = Returns (SECURE_ELEMENT_SUCCESS,
              {| LR1110 := []; SeContext := SeContext (world_of []);
                 SeNvmCtxChanged := Some DummyCB;
                 trace :=
                   [CryptoCall
                      (lr1110_crypto_derive_and_store_key
                         LR1110_CRYPTO_KEYS_IDX_GP_KE_KEY_4
                         LR1110_CRYPTO_KEYS_IDX_GP_KE_KEY_2 (repeat 5 16));
                    CryptoCall lr1110_crypto_store_to_flash] |})) /\
  (SecureElementSetKey (env := scripted) MC_KEY_2 (Some (repeat 5 16))
     (world_of [(SECURE_ELEMENT_ERROR, [])])
   = Returns (SECURE_ELEMENT_ERROR,
              {| LR1110 := []; SeContext := SeContext (world_of []);
                 SeNvmCtxChanged := Some DummyCB;
                 trace :=
                   [CryptoCall
                      (lr1110_crypto_derive_and_store_key
                         LR1110_CRYPTO_KEYS_IDX_GP_KE_KEY_4
                         LR1110_CRYPTO_KEYS_IDX_GP_KE_KEY_2 (repeat 5 16))] |})) /\
  (SecureElementSetKey (env := scripted) APP_KEY (Some (repeat 5 16))
     (world_of [(SECURE_ELEMENT_SUCCESS, []); (SECURE_ELEMENT_SUCCESS, [])])
   = Returns (SECURE_ELEMENT_SUCCESS,
              {| LR1110 := []; SeContext := SeContext (world_of []);
                 SeNvmCtxChanged := Some DummyCB;
                 trace :=
                   [CryptoCall
                      (lr1110_crypto_set_key LR1110_CRYPTO_KEYS_IDX_APP_KEY
                         (repeat 5 16));
                    CryptoCall lr1110_crypto_store_to_flash] |})) /\
  (SecureElementSetKey (env := scripted) APP_KEY (Some (repeat 5 16))
     (world_of [(SECURE_ELEMENT_ERROR, [])])
   = Returns (SECURE_ELEMENT_ERROR,
              {| LR1110 := []; SeContext := SeContext (world_of []);
                 SeNvmCtxChanged := Some DummyCB;
                 trace :=
                   [CryptoCall
                      (lr1110_crypto_set_key LR1110_CRYPTO_KEYS_IDX_APP_KEY
                         (repeat 5 16))] |})).
Proof.
  split; [|split; [|split]].
  - destruct (SetKey_derive_or_store_then_persist (env := scripted)
                (world_of [(SECURE_ELEMENT_SUCCESS, []);
                           (SECURE_ELEMENT_SUCCESS, [])])
                MC_KEY_2 (repeat 5 16)) as [Hmc _].
    destruct (Hmc ltac:(simpl; tauto)
                [(SECURE_ELEMENT_SUCCESS, [])] SECURE_ELEMENT_SUCCESS []
                eq_refl) as [Hok _].
    exact (Hok eq_refl [] SECURE_ELEMENT_SUCCESS [] eq_refl).
  - destruct (SetKey_derive_or_store_then_persist (env := scripted)
                (world_of [(SECURE_ELEMENT_ERROR, [])])
                MC_KEY_2 (repeat 5 16)) as [Hmc _].
    destruct (Hmc ltac:(simpl; tauto) [] SECURE_ELEMENT_ERROR [] eq_refl)
      as [_ Hko].
    apply Hko. discriminate.
  - destruct (SetKey_derive_or_store_then_persist (env := scripted)
                (world_of [(SECURE_ELEMENT_SUCCESS, []);
                           (SECURE_ELEMENT_SUCCESS, [])])
                APP_KEY (repeat 5 16)) as [_ Hother].
    destruct (Hother
                ltac:(simpl; intros [H | [H | [H | [H | []]]]]; discriminate H)
                [(SECURE_ELEMENT_SUCCESS, [])] SECURE_ELEMENT_SUCCESS []
                eq_refl) as [Hok _].
    exact (Hok eq_refl [] SECURE_ELEMENT_SUCCESS [] eq_refl).
  - destruct (SetKey_derive_or_store_then_persist (env := scripted)
                (world_of [(SECURE_ELEMENT_ERROR, [])])
                APP_KEY (repeat 5 16)) as [_ Hother].
    destruct (Hother
                ltac:(simpl; intros [H | [H | [H | [H | []]]]]; discriminate H)
                [] SECURE_ELEMENT_ERROR [] eq_refl) as [_ Hko].
    apply Hko. discriminate.
Defined.

(** The setter theorem on an initialised world: each setter on a buffer of
    the size of its field. *)
Lemma setters_null_or_copy_and_notify_runs :
  SecureElementSetDevEui (E := script) (Some eui8)
    (world_of [])
  = Returns (SECURE_ELEMENT_SUCCESS,
             {| LR1110 := [];
                SeContext := {| DevEui := eui8; JoinEui := repeat 0 8;
                                Pin := repeat 0 4 |};
                SeNvmCtxChanged := Some DummyCB;
                trace := [NvmCtxChanged DummyCB] |}) /\
  SecureElementSetJoinEui (E := script) (Some eui8)
    (world_of [])
  = Returns (SECURE_ELEMENT_SUCCESS,
             {| LR1110 := [];
                SeContext := {| DevEui := repeat 0 8; JoinEui := eui8;
                                Pin := repeat 0 4 |};
                SeNvmCtxChanged := Some DummyCB;
                trace := [NvmCtxChanged DummyCB] |}) /\
  SecureElementSetPin (cfg := stack_config) (E := script)
    (Some [1; 2; 3; 4]) (world_of [])
  = Returns (SECURE_ELEMENT_SUCCESS,
             {| LR1110 := [];
                SeContext := {| DevEui := repeat 0 8; JoinEui := repeat 0 8;
                                Pin := [1; 2; 3; 4] |};
                SeNvmCtxChanged := Some DummyCB;
                trace := [NvmCtxChanged DummyCB] |}).
Proof.
  destruct (setters_null_or_copy_and_notify (cfg := stack_config)
              (world_of [])) as [_ Hset].
  assert (Hwf : SeContext_wf (cfg := stack_config) (SeContext (world_of [])))
    by (repeat split).
  split; [|split].
  - destruct (Hset DummyCB eui8 Hwf eq_refl) as (Hdev & _ & _).
    apply Hdev. apply Nat.leb_le. reflexivity.
  - destruct (Hset DummyCB eui8 Hwf eq_refl) as (_ & Hjoin & _).
    apply Hjoin. apply Nat.leb_le. reflexivity.
  - destruct (Hset DummyCB [1; 2; 3; 4] Hwf eq_refl) as (_ & _ & Hpin).
    apply Hpin. apply Nat.leb_le. reflexivity.
Defined.

(** The round-trip theorem on a blob of 20 bytes. *)
Lemma RestoreNvmCtx_GetNvmCtx_roundtrip_runs :
  exists status w',
    SecureElementRestoreNvmCtx (cfg := stack_config) (env := scripted)
      (Some (eui8 ++ rev eui8 ++ [1; 2; 3; 4]))
      (world_of [(SECURE_ELEMENT_SUCCESS, [])])
    = Returns (status, w') /\
    SecureElementGetNvmCtx (cfg := stack_config) (Some 0) w'
    = Returns ((20, eui8 ++ rev eui8 ++ [1; 2; 3; 4]), w').
Proof.
  destruct (RestoreNvmCtx_GetNvmCtx_roundtrip (cfg := stack_config)
              (env := scripted) (world_of [(SECURE_ELEMENT_SUCCESS, [])])
              (eui8 ++ rev eui8 ++ [1; 2; 3; 4]) 0)
    as (status & w' & Hrestore & Hget & _).
  - repeat split.
  - reflexivity.
  - exists status, w'. split; [exact Hrestore | exact Hget].
Defined.


(** Case analysis on a run: destructs the innermost scrutinee of a match in
    [H]. *)
Ltac break_hyp H :=
  match type of H with
  | context [match ?x with _ => _ end] =>
      lazymatch x with
      | context [match _ with _ => _ end] => fail
      | _ => destruct x eqn:?
      end
  end.

(** ** Join-accept processing: every path *)

Section JoinAcceptPaths.

Context {cfg : BuildConfig} {E : Type} {env : Collaborators E}.

Lemma poke_firstn (dst : buffer) (off : nat) (data : list Z) :
  (off <= length dst)%nat -> firstn off (poke dst off data) = firstn off dst.
Proof.
  intros H. unfold poke.
  rewrite firstn_app, length_firstn, Nat.min_l by assumption.
  rewrite Nat.sub_diag. cbn [firstn]. rewrite app_nil_r.
  rewrite firstn_firstn. f_equal. lia.
Qed.

(** What a collaborator leaves in a buffer it wrote into at [off]: the
    length and the bytes before [off] are as before. *)
Lemma written_inv (d : buffer) (off : nat) (data : list Z)
  (r : option buffer) :
  written (Some d) off data = Returns r ->
  r = Some (poke d off data) /\
  length (poke d off data) = length d /\
  firstn off (poke d off data) = firstn off d.
Proof.
  unfold written. destruct data as [|x data].
  - intros H. injection H as <-. rewrite poke_nil. auto.
  - destruct (off + length (x :: data) <=? length d)%nat eqn:Hroom;
      [|discriminate].
    apply Nat.leb_le in Hroom. intros H. injection H as <-.
    split; [reflexivity|]. split.
    + now apply poke_length.
    + apply poke_firstn. lia.
Qed.

(** What the 1.1.x block leaves when it returns. *)
Lemma ProcessJoinAccept_1_1_x_post
  (w w' : World E) (joinReqType : Z) (joinEui : option buffer) (devNonce : Z)
  (enc : buffer) (size : Z) (encKeyID : KeyIdentifier_t)
  (status : SecureElementStatus_t) (dec : buffer) (vm : option Z)
  (r : JoinAcceptResult) :
  ProcessJoinAccept_1_1_x joinReqType joinEui devNonce enc size encKeyID
    status (Some dec) vm w = Returns (r, w') ->
  only_calls is_process_join_accept 1 w w' /\
  (exists dec', ja_decJoinAccept r = Some dec' /\
                length dec' = length dec /\ firstn 1 dec' = firstn 1 dec) /\
  (ja_status r = SECURE_ELEMENT_SUCCESS ->
   ja_versionMinor r = Some 0 \/ ja_versionMinor r = Some 1 \/
   (status = SECURE_ELEMENT_SUCCESS /\ ja_versionMinor r = vm)).
Proof.
  unfold ProcessJoinAccept_1_1_x, only_calls.
  destruct (USE_LRWAN_1_1_X_CRYPTO =? 1).
  - unfold bind, lift, ret, lr1110_crypto.
    cbn [LR1110 SeContext SeNvmCtxChanged trace].
    intros H.
    repeat (break_hyp H; try discriminate H).
    all: injection H as <- <-; cbn [LR1110 SeContext SeNvmCtxChanged trace
                                     ja_status ja_decJoinAccept ja_versionMinor].
    all: match goal with
         | Hw : written (Some _) 1 _ = Returns _ |- _ =>
             apply written_inv in Hw; destruct Hw as (-> & Hlen & Hfirst)
         end.
    all: (split; [split; [reflexivity|split; [reflexivity|]];
                  eexists; split; [reflexivity|split; [cbn; lia|reflexivity]]|]).
    all: (split; [eexists; split; [reflexivity|split; assumption]|]).
    all: intros Hs; auto.
    all: try (subst; discriminate).
  - unfold ret. intros H. injection H as <- <-.
    cbn [ja_status ja_decJoinAccept ja_versionMinor].
    split; [split; [reflexivity|split; [reflexivity|]];
            exists []; rewrite app_nil_r; split; [reflexivity|split; [cbn; lia|reflexivity]]|].
    split; [exists dec; auto|]. auto.
Qed.


Lemma only_calls_refl (kind : Event -> bool) (n : nat) (w : World E) :
  only_calls kind n w w.
Proof.
  repeat split. exists []. rewrite app_nil_r.
  split; [reflexivity|]. split; [cbn; lia|reflexivity].
Qed.

Lemma only_calls_trans (kind : Event -> bool) (n m : nat)
  (w w1 w2 : World E) :
  only_calls kind n w w1 -> only_calls kind m w1 w2 ->
  only_calls kind (n + m) w w2.
Proof.
  intros (Hc1 & Hp1 & l1 & Ht1 & Hn1 & Hk1) (Hc2 & Hp2 & l2 & Ht2 & Hn2 & Hk2).
  split; [congruence|]. split; [congruence|].
  exists (l1 ++ l2). rewrite Ht2, Ht1, app_assoc.
  split; [reflexivity|]. split.
  - rewrite length_app. lia.
  - rewrite forallb_app, Hk1, Hk2. reflexivity.
Qed.

Lemma only_calls_weaken (kind : Event -> bool) (n m : nat) (w w' : World E) :
  (n <= m)%nat -> only_calls kind n w w' -> only_calls kind m w w'.
Proof.
  intros Hnm (Hc & Hp & l & Ht & Hn & Hk).
  split; [assumption|]. split; [assumption|].
  exists l. split; [assumption|]. split; [lia|assumption].
Qed.

Lemma only_calls_after_call (w : World E) (e : E)
  (r : lr1110_crypto_request) (kind : Event -> bool) :
  kind (CryptoCall r) = true -> only_calls kind 1 w (after_call w e r).
Proof.
  intros Hk. repeat split. exists [CryptoCall r].
  split; [reflexivity|]. split; [cbn; lia|]. cbn. now rewrite Hk.
Qed.

(** What [SecureElementProcessJoinAccept] leaves when it returns. *)
Lemma ProcessJoinAccept_post
  (w w' : World E) (joinReqType : Z) (joinEui : option buffer) (devNonce : Z)
  (encJoinAccept : option buffer) (size : Z) (decJoinAccept : option buffer)
  (versionMinor : option Z) (r : JoinAcceptResult) :
  SecureElementProcessJoinAccept joinReqType joinEui devNonce encJoinAccept
    size decJoinAccept versionMinor w = Returns (r, w') ->
  only_calls is_process_join_accept 2 w w' /\
  (forall dec, decJoinAccept = Some dec ->
     exists dec', ja_decJoinAccept r = Some dec' /\
                  length dec' = length dec /\ firstn 1 dec' = firstn 1 dec) /\
  (ja_status r = SECURE_ELEMENT_SUCCESS ->
   ja_versionMinor r = Some 0 \/ ja_versionMinor r = Some 1).
Proof.
  unfold SecureElementProcessJoinAccept.
  unfold bind, lift, ret, lr1110_crypto.
  cbn [LR1110 SeContext SeNvmCtxChanged trace].
  intros H.
  repeat (break_hyp H; try discriminate H).
  all: try (injection H as <- <-;
            cbn [ja_status ja_decJoinAccept ja_versionMinor]).
  all: try match goal with
       | Hw : written (Some _) 1 _ = Returns _ |- _ =>
           apply written_inv in Hw; destruct Hw as (-> & Hlen & Hfirst)
       end.
  all: try match goal with
       | Hb : ProcessJoinAccept_1_1_x _ _ _ _ _ _ _ _ _ _ = Returns _ |- _ =>
           apply ProcessJoinAccept_1_1_x_post in Hb;
           destruct Hb as (Hcalls & (dec' & Hd & Hl & Hf) & Hminor)
       end.
  all: try match goal with
       | Hc : only_calls _ 1 ?w1 _ |- _ =>
           match w1 with
           | {| LR1110 := ?e; trace := _ ++ [CryptoCall ?c] |} =>
               change w1 with (after_call w e c) in Hc;
               pose proof (only_calls_trans _ _ _ _ _ _
                             (only_calls_after_call w e c
                                is_process_join_accept eq_refl) Hc) as Hall
           end
       end.
  all: split;
    [first [ exact Hall
           | apply only_calls_refl
           | apply (only_calls_weaken _ 1 2); [lia|];
             match goal with
             | |- only_calls _ 1 ?w0
                    {| LR1110 := ?e; SeContext := _; SeNvmCtxChanged := _;
                       trace := _ ++ [CryptoCall ?c] |} =>
                 apply (only_calls_after_call w0 e c); reflexivity
             end ]|].
  all: split;
    [intros d Hd0; try discriminate Hd0;
     first [injection Hd0 as <- | subst decJoinAccept];
     first [ exists dec'; repeat split; congruence
           | eexists; repeat split; eauto ]|].
  all: intros Hs; try discriminate Hs; auto.
  all: try (destruct (Hminor Hs) as [Hm | [Hm | [Hst Hm]]]; auto;
            subst; try discriminate; auto).
Qed.


(** X1.  Whenever [SecureElementProcessJoinAccept] returns, all it has done
    to the world is at most two engine calls, both
    [lr1110_crypto_process_join_accept]: the context and the callback pointer
    are as before, no key is stored or persisted and the change callback is
    not called. *)
Theorem ProcessJoinAccept_only_engine_calls
  (w w' : World E) (joinReqType : Z) (joinEui : option buffer) (devNonce : Z)
  (encJoinAccept : option buffer) (size : Z) (decJoinAccept : option buffer)
  (versionMinor : option Z) (r : JoinAcceptResult) :
  SecureElementProcessJoinAccept joinReqType joinEui devNonce encJoinAccept
    size decJoinAccept versionMinor w = Returns (r, w') ->
  only_calls is_process_join_accept 2 w w'.
Proof. intros H. now apply ProcessJoinAccept_post in H. Qed.

(** X2.  Whenever [SecureElementProcessJoinAccept] returns, the caller's
    [decJoinAccept] buffer has the length it had and its byte 0 (the MHDR) is
    as the caller left it: the function never writes it, on any path. *)
Theorem ProcessJoinAccept_keeps_mhdr_and_length
  (w w' : World E) (joinReqType : Z) (joinEui : option buffer) (devNonce : Z)
  (encJoinAccept : option buffer) (size : Z) (dec : buffer)
  (versionMinor : option Z) (r : JoinAcceptResult) :
  SecureElementProcessJoinAccept joinReqType joinEui devNonce encJoinAccept
    size (Some dec) versionMinor w = Returns (r, w') ->
  exists dec',
    ja_decJoinAccept r = Some dec' /\
    length dec' = length dec /\
    firstn 1 dec' = firstn 1 dec.
Proof.
  intros H. apply ProcessJoinAccept_post in H.
  destruct H as (_ & Hdec & _). now apply Hdec.
Qed.

(** X3.  Whenever [SecureElementProcessJoinAccept] returns Success, it has
    written [*versionMinor], and the value is 0 or 1. *)
Theorem ProcessJoinAccept_success_writes_minor
  (w w' : World E) (joinReqType : Z) (joinEui : option buffer) (devNonce : Z)
  (encJoinAccept : option buffer) (size : Z) (decJoinAccept : option buffer)
  (versionMinor : option Z) (r : JoinAcceptResult) :
  SecureElementProcessJoinAccept joinReqType joinEui devNonce encJoinAccept
    size decJoinAccept versionMinor w = Returns (r, w') ->
  ja_status r = SECURE_ELEMENT_SUCCESS ->
  ja_versionMinor r = Some 0 \/ ja_versionMinor r = Some 1.
Proof.
  intros H. apply ProcessJoinAccept_post in H.
  destruct H as (_ & _ & Hminor). exact Hminor.
Qed.

(** X4.  With the 1.1.x trial compiled in: when both trials leave a failure
    status, the function returns the status of the second one after exactly
    two engine calls, [*versionMinor] is as the caller left it, and the
    caller's buffer holds what the two calls wrote into it. *)
Theorem ProcessJoinAccept_both_trials_fail
  (w : World E) (joinReqType : Z) (je : buffer) (devNonce : Z)
  (enc : buffer) (size : Z) (dec : buffer) (vm : Z) (e1 e2 : E)
  (st1 st2 : SecureElementStatus_t) (plain1 plain2 : list Z) :
  USE_LRWAN_1_1_X_CRYPTO = 1 ->
  size <= LORAMAC_JOIN_ACCEPT_FRAME_MAX_SIZE ->
  (8 <= length je)%nat ->
  crypto (LR1110 w) (trial_1_0_x joinReqType enc size) SECURE_ELEMENT_ERROR
    = (e1, st1, plain1) ->
  (1 + length plain1 <= length dec)%nat ->
  st1 <> SECURE_ELEMENT_SUCCESS ->
  crypto e1 (trial_1_1_x joinReqType je devNonce enc size) st1
    = (e2, st2, plain2) ->
  (1 + length plain2 <= length dec)%nat ->
  st2 <> SECURE_ELEMENT_SUCCESS ->
  SecureElementProcessJoinAccept joinReqType (Some je) devNonce (Some enc)
    size (Some dec) (Some vm) w =
  Returns ({| ja_status := st2;
              ja_decJoinAccept := Some (poke (poke dec 1 plain1) 1 plain2);
              ja_versionMinor := Some vm |},
           after_call (after_call w e1 (trial_1_0_x joinReqType enc size)) e2
             (trial_1_1_x joinReqType je devNonce enc size)).
Proof.
  intros Huse Hsize Hje Hcall1 Hroom1 Hko1 Hcall2 Hroom2 Hko2.
  apply is_success_false in Hko1, Hko2.
  rewrite (ProcessJoinAccept_1_0_x_run _ _ _ _ _ _ _ _ _ _ _ Hsize Hcall1 Hroom1).
  cbv zeta. rewrite Hko1.
  assert (Hroom2' : (1 + length plain2 <= length (poke dec 1 plain1))%nat)
    by (rewrite poke_length; assumption).
  rewrite (ProcessJoinAccept_1_1_x_run
             (after_call w e1 (trial_1_0_x joinReqType enc size))
             _ _ _ _ _ _ _ _ _ _ _ Huse Hje Hcall2 Hroom2').
  cbv zeta. now rewrite Hko2.
Qed.

(** X5.  Without the 1.1.x trial ([USE_LRWAN_1_1_X_CRYPTO] other than 1)
    the function makes the 1.0.x call only and returns the status it leaves:
    a failure with [*versionMinor] untouched, or Success with
    [*versionMinor] set from bit 0x80 of byte 11, which is 1 when the bit is
    set. *)
Theorem ProcessJoinAccept_without_1_1_x
  (w : World E) (joinReqType : Z) (joinEui : option buffer) (devNonce : Z)
  (enc : buffer) (size : Z) (dec : buffer) (vm : Z) (e1 : E)
  (st1 : SecureElementStatus_t) (plain1 : list Z) :
  USE_LRWAN_1_1_X_CRYPTO <> 1 ->
  size <= LORAMAC_JOIN_ACCEPT_FRAME_MAX_SIZE ->
  crypto (LR1110 w) (trial_1_0_x joinReqType enc size) SECURE_ELEMENT_ERROR
    = (e1, st1, plain1) ->
  (1 + length plain1 <= length dec)%nat ->
  let run :=
    SecureElementProcessJoinAccept joinReqType joinEui devNonce (Some enc)
      size (Some dec) (Some vm) w in
  let w1 := after_call w e1 (trial_1_0_x joinReqType enc size) in
  (st1 <> SECURE_ELEMENT_SUCCESS ->
   run = Returns ({| ja_status := st1;
                     ja_decJoinAccept := Some (poke dec 1 plain1);
                     ja_versionMinor := Some vm |}, w1)) /\
  (forall bit,
     st1 = SECURE_ELEMENT_SUCCESS ->
     version_bit (poke dec 1 plain1) = Some bit ->
     run = Returns ({| ja_status := SECURE_ELEMENT_SUCCESS;
                       ja_decJoinAccept := Some (poke dec 1 plain1);
                       ja_versionMinor := Some (if bit then 1 else 0) |}, w1)).
Proof.
  intros Huse Hsize Hcall Hroom run w1. subst run w1.
  rewrite (ProcessJoinAccept_1_0_x_run _ _ _ _ _ _ _ _ _ _ _ Hsize Hcall Hroom).
  cbv zeta. unfold ProcessJoinAccept_1_1_x.
  apply Z.eqb_neq in Huse. rewrite Huse. unfold ret. split.
  - intros Hko. apply is_success_false in Hko. now rewrite Hko.
  - intros bit -> Hbit. cbn [is_success]. rewrite Hbit. now destruct bit.
Qed.

(** X6.  [joinEui] is read without a null check: with the 1.1.x trial
    compiled in, when the 1.0.x trial does not end the function (it leaves a
    failure, or Success with bit 0x80 of byte 11 set) and [joinEui] is null
    or holds fewer than 8 bytes, the behaviour is undefined. *)
Theorem ProcessJoinAccept_joinEui_unchecked
  (w : World E) (joinReqType : Z) (joinEui : option buffer) (devNonce : Z)
  (enc : buffer) (size : Z) (dec : buffer) (vm : Z) (e1 : E)
  (st1 : SecureElementStatus_t) (plain1 : list Z) :
  USE_LRWAN_1_1_X_CRYPTO = 1 ->
  size <= LORAMAC_JOIN_ACCEPT_FRAME_MAX_SIZE ->
  crypto (LR1110 w) (trial_1_0_x joinReqType enc size) SECURE_ELEMENT_ERROR
    = (e1, st1, plain1) ->
  (1 + length plain1 <= length dec)%nat ->
  (st1 <> SECURE_ELEMENT_SUCCESS \/
   version_bit (poke dec 1 plain1) = Some true) ->
  match joinEui with
  | None => True
  | Some je => (length je < 8)%nat
  end ->
  SecureElementProcessJoinAccept joinReqType joinEui devNonce (Some enc) size
    (Some dec) (Some vm) w = Undefined.
Proof.
  intros Huse Hsize Hcall Hroom Hfirst Hje.
  rewrite (ProcessJoinAccept_1_0_x_run _ _ _ _ _ _ _ _ _ _ _ Hsize Hcall Hroom).
  cbv zeta.
  assert (Hblock : forall status minor w1,
    ProcessJoinAccept_1_1_x joinReqType joinEui devNonce enc size
      (if negb (joinReqType =? JOIN_REQ) then J_S_ENC_KEY else NWK_KEY)
      status (Some (poke dec 1 plain1)) minor w1 = Undefined).
  { intros status minor w1. unfold ProcessJoinAccept_1_1_x. rewrite Huse.
    cbn [Z.eqb Pos.eqb]. unfold bind, lift. cbn [array_set repeat
      JOIN_ACCEPT_MIC_COMPUTATION_OFFSET Nat.add length Nat.ltb Nat.leb].
    unfold memcpyr, LORAMAC_JOIN_EUI_FIELD_SIZE.
    destruct joinEui as [je|]; [|reflexivity].
    replace (8 <=? length je)%nat with false
      by (symmetry; apply Nat.leb_gt; exact Hje).
    reflexivity. }
  destruct (is_success st1) eqn:Hst1.
  - destruct Hfirst as [Hko | Hbit].
    + apply is_success_false in Hko. congruence.
    + rewrite Hbit. apply Hblock.
  - apply Hblock.
Qed.

End JoinAcceptPaths.

(** ** The facade: null inputs, bounds and what is left alone *)

Section Facade.

Context {cfg : BuildConfig} {E : Type} {env : Collaborators E}.


(** X7.  A null pointer in a checked position makes the function return
    NullInput before anything else happens: no collaborator is called and no
    output is written.  The checked positions are the blob of
    [SecureElementRestoreNvmCtx], the key of [SecureElementSetKey], the
    buffer of [SecureElementVerifyAesCmac], both buffers of
    [SecureElementAesEncrypt], the input of [SecureElementDeriveAndStoreKey]
    and the destination of [SecureElementRandomNumber]. *)
Theorem null_inputs_return_NPE_without_calls (w : World E) :
  SecureElementRestoreNvmCtx None w = Returns (SECURE_ELEMENT_ERROR_NPE, w) /\
  (forall keyID,
     SecureElementSetKey keyID None w = Returns (SECURE_ELEMENT_ERROR_NPE, w)) /\
  (forall size expectedCmac keyID,
     SecureElementVerifyAesCmac None size expectedCmac keyID w
     = Returns (SECURE_ELEMENT_ERROR_NPE, w)) /\
  (forall buffer_ encBuffer size keyID,
     buffer_ = None \/ encBuffer = None ->
     SecureElementAesEncrypt buffer_ size keyID encBuffer w
     = Returns ((SECURE_ELEMENT_ERROR_NPE, encBuffer), w)) /\
  (forall version rootKeyID targetKeyID,
     SecureElementDeriveAndStoreKey version None rootKeyID targetKeyID w
     = Returns (SECURE_ELEMENT_ERROR_NPE, w)) /\
  SecureElementRandomNumber None w
  = Returns ((SECURE_ELEMENT_ERROR_NPE, None), w).
Proof.
  repeat split.
  intros buffer_ encBuffer size keyID [-> | ->].
  - reflexivity.
  - now destruct buffer_.
Qed.




(** X9.  The scratch array does not live long enough: [micBuff] is declared
    inside the block that fills it, and the engine call that reads it through
    [localbuffer] comes after the block.  So even with a MIC block of at
    least 16 bytes and a payload of [size] bytes, [size] at most 256, where
    the block itself is well defined, the call has undefined behaviour. *)
Theorem ComputeAesCmac_mic_block_out_of_scope
  (w : World E) (mic payload : buffer) (size : Z) (keyID : KeyIdentifier_t)
  (cmac : option buffer) :
  (16 <= length mic)%nat ->
  0 <= size <= 256 ->
  (Z.to_nat size <= length payload)%nat ->
  (exists localSize micBuff,
     ComputeAesCmac_micBuff (Some mic) (Some payload) size
     = Returns (localSize, micBuff)) /\
  SecureElementComputeAesCmac (Some mic) (Some payload) size keyID cmac w
  = Undefined.
Proof.
  intros Hmic Hsize Hpay.
  pose proof (ComputeAesCmac_micBuff_filled mic payload size Hmic Hsize Hpay)
    as Hblock.
  split.
  - do 2 eexists. exact Hblock.
  - unfold SecureElementComputeAesCmac, bind, lift, ret. now rewrite Hblock.
Qed.

(** X10.  Whenever one of the key and crypto functions returns, all it has
    done to the world is engine calls, at most two for
    [SecureElementSetKey] and [SecureElementDeriveAndStoreKey] and at most
    one for the others: the context and the callback pointer are as before
    and the change callback is not called. *)
Theorem facade_only_engine_calls (w w' : World E) :
  (forall keyID key st,
     SecureElementSetKey keyID key w = Returns (st, w') ->
     only_calls is_crypto_call 2 w w') /\
  (forall version input rootKeyID targetKeyID st,
     SecureElementDeriveAndStoreKey version input rootKeyID targetKeyID w
     = Returns (st, w') ->
     only_calls is_crypto_call 2 w w') /\
  (forall micBxBuffer buffer_ size keyID cmac r,
     SecureElementComputeAesCmac micBxBuffer buffer_ size keyID cmac w
     = Returns (r, w') ->
     only_calls is_crypto_call 1 w w') /\
  (forall buffer_ size expectedCmac keyID st,
     SecureElementVerifyAesCmac buffer_ size expectedCmac keyID w
     = Returns (st, w') ->
     only_calls is_crypto_call 1 w w') /\
  (forall buffer_ size keyID encBuffer r,
     SecureElementAesEncrypt buffer_ size keyID encBuffer w
     = Returns (r, w') ->
     only_calls is_crypto_call 1 w w').
Proof.
  assert (Hsolve : forall (n : nat) (calls : list Event),
            (length calls <= n)%nat -> forallb is_crypto_call calls = true ->
            only_calls is_crypto_call n w
              {| LR1110 := LR1110 w'; SeContext := SeContext w;
                 SeNvmCtxChanged := SeNvmCtxChanged w;
                 trace := trace w ++ calls |}).
  { intros n calls Hn Hk. repeat split. exists calls. auto. }
  repeat split.
  all: intros; cbn [SeContext SeNvmCtxChanged].
  all: match goal with
       | H : _ = Returns _ |- _ =>
           unfold SecureElementSetKey, SecureElementDeriveAndStoreKey,
             SecureElementComputeAesCmac, SecureElementVerifyAesCmac,
             SecureElementAesEncrypt, bind, lift, ret, lr1110_crypto in H;
           cbn [LR1110 SeContext SeNvmCtxChanged trace fst snd pointer_value]
             in H;
           repeat (break_hyp H; try discriminate H);
           injection H as <- <-
       end.
  all: cbn [SeContext SeNvmCtxChanged trace]; try reflexivity.
  all: try (exists []; rewrite app_nil_r;
            split; [reflexivity|split; [cbn; lia|reflexivity]]).
  all: try (rewrite <- app_assoc).
  all: eexists; split; [reflexivity|split; [cbn; lia|reflexivity]].
Qed.

End Facade.

(** ** The context: invariant, round trips, initialisation *)

Section ContextPaths.

Context {cfg : BuildConfig} {E : Type} {env : Collaborators E}.

Ltac run_in H :=
  unfold bind, ret, lift, get_SeContext, set_SeContext, call_SeNvmCtxChanged,
    assign_SeNvmCtxChanged, board_read, lr1110_crypto in H;
  cbn [LR1110 SeContext SeNvmCtxChanged trace DevEui JoinEui Pin] in H.

Lemma written_field_length (field : buffer) (data : list Z)
  (r : option buffer) :
  written (Some field) 0 data = Returns r ->
  length (match r with Some f => f | None => field end) = length field.
Proof.
  intros H. apply written_inv in H. destruct H as (-> & Hlen & _).
  exact Hlen.
Qed.

Lemma SeContext_of_bytes_bytes (c : SecureElementNvCtx_t) :
  SeContext_wf c -> SeContext_of_bytes (SeContext_bytes c) = c.
Proof.
  intros (Hd & Hj & Hp). destruct c as [d j p].
  cbn [DevEui JoinEui Pin] in *.
  unfold SeContext_of_bytes, SeContext_bytes. cbn [DevEui JoinEui Pin].
  f_equal.
  - rewrite firstn_app, <- Hd, Nat.sub_diag, firstn_all. cbn [firstn].
    apply app_nil_r.
  - rewrite skipn_app, <- Hd, Nat.sub_diag, skipn_all. cbn [skipn app].
    rewrite Hd, firstn_app, <- Hj, Nat.sub_diag, firstn_all. cbn [firstn].
    apply app_nil_r.
  - rewrite app_assoc, skipn_app, length_app.
    rewrite skipn_all2 by (rewrite length_app; lia).
    replace (SE_EUI_SIZE + SE_EUI_SIZE - (length d + length j))%nat
      with 0%nat by lia.
    cbn [skipn app]. rewrite <- Hp. apply firstn_all.
Qed.

(** [SecureElementInit] keeps the arrays of the context at their declared
    sizes. *)
Lemma Init_preserves_wf
  (w w' : World E) (seNvmCtxChanged : option nat)
  (st : SecureElementStatus_t) :
  SeContext_wf (SeContext w) ->
  SecureElementInit seNvmCtxChanged w = Returns (st, w') ->
  SeContext_wf (SeContext w').
Proof.
  intros (Hd & Hj & Hp) H. unfold SecureElementInit in H. run_in H.
  repeat (break_hyp H; try discriminate H).
  all: injection H as _ <-; cbn [SeContext DevEui JoinEui Pin].
  all: repeat match goal with
       | Hw : written (Some _) 0 _ = Returns _ |- _ =>
           apply written_field_length in Hw; cbn beta iota in Hw
       end.
  all: cbn [LR1110 SeContext SeNvmCtxChanged trace DevEui JoinEui Pin] in *.
  all: subst; repeat split; cbn [DevEui JoinEui Pin]; congruence.
Qed.

Ltac run :=
  unfold bind, ret, lift, get_SeContext, set_SeContext, call_SeNvmCtxChanged,
    lr1110_crypto;
  cbn [LR1110 SeContext SeNvmCtxChanged trace DevEui JoinEui Pin].

(** X11.  Set and get: on an initialised component, after a setter has
    stored a buffer that holds the field, the getter of that field returns
    the first bytes of the buffer, and the getters of the two other fields
    return what they returned before. *)
Theorem setter_then_getters
  (w : World E) (cb : SecureElementNvmEvent) (src : buffer) :
  SeContext_wf (SeContext w) ->
  SeNvmCtxChanged w = Some cb ->
  ((SE_EUI_SIZE <= length src)%nat ->
   exists w',
     SecureElementSetDevEui (Some src) w = Returns (SECURE_ELEMENT_SUCCESS, w') /\
     SecureElementGetDevEui w' = Returns (firstn SE_EUI_SIZE src, w') /\
     SecureElementGetJoinEui w' = Returns (JoinEui (SeContext w), w') /\
     SecureElementGetPin w' = Returns (Pin (SeContext w), w')) /\
  ((SE_EUI_SIZE <= length src)%nat ->
   exists w',
     SecureElementSetJoinEui (Some src) w = Returns (SECURE_ELEMENT_SUCCESS, w') /\
     SecureElementGetDevEui w' = Returns (DevEui (SeContext w), w') /\
     SecureElementGetJoinEui w' = Returns (firstn SE_EUI_SIZE src, w') /\
     SecureElementGetPin w' = Returns (Pin (SeContext w), w')) /\
  ((SE_PIN_SIZE <= length src)%nat ->
   exists w',
     SecureElementSetPin (Some src) w = Returns (SECURE_ELEMENT_SUCCESS, w') /\
     SecureElementGetDevEui w' = Returns (DevEui (SeContext w), w') /\
     SecureElementGetJoinEui w' = Returns (JoinEui (SeContext w), w') /\
     SecureElementGetPin w' = Returns (firstn SE_PIN_SIZE src, w')).
Proof.
  intros (Hd & Hj & Hp) Hcb.
  split; [|split]; intros Hsrc; eexists.
  - unfold SecureElementSetDevEui. run.
    rewrite (memcpy1_field _ _ _ Hd Hsrc), Hcb.
    split; [reflexivity|]. repeat split.
  - unfold SecureElementSetJoinEui. run.
    rewrite (memcpy1_field _ _ _ Hj Hsrc), Hcb.
    split; [reflexivity|]. repeat split.
  - unfold SecureElementSetPin. run.
    rewrite (memcpy1_field _ _ _ Hp Hsrc), Hcb.
    split; [reflexivity|]. repeat split.
Qed.

(** X12.  Snapshot and restore: restoring the bytes that
    [SecureElementGetNvmCtx] shows returns and leaves the context exactly as
    it was, and the reported size is the number of those bytes. *)
Theorem GetNvmCtx_RestoreNvmCtx_identity
  (w w0 : World E) (cell n : Z) (snapshot : buffer) :
  SeContext_wf (SeContext w) ->
  SecureElementGetNvmCtx (Some cell) w = Returns ((n, snapshot), w0) ->
  n = Z.of_nat (length snapshot) /\
  exists status w',
    SecureElementRestoreNvmCtx (Some snapshot) w0 = Returns (status, w') /\
    SeContext w' = SeContext w.
Proof.
  intros Hwf H. unfold SecureElementGetNvmCtx in H. run_in H.
  injection H as <- <- <-.
  rewrite (SeContext_bytes_length _ Hwf). split; [reflexivity|].
  unfold SecureElementRestoreNvmCtx. run.
  destruct (crypto (LR1110 w) lr1110_crypto_restore_from_flash
              LR1110_CRYPTO_STATUS_ERROR) as [[e st] o].
  rewrite memcpy1_Some
    by (rewrite ?SeContext_bytes_length by assumption; lia).
  rewrite firstn_all2
    by (rewrite SeContext_bytes_length by assumption; lia).
  rewrite poke_whole by reflexivity.
  do 2 eexists. split; [reflexivity|].
  cbn [SeContext]. now apply SeContext_of_bytes_bytes.
Qed.

(** X13.  [SecureElementRestoreNvmCtx] on a blob of at least the size of
    the context makes one engine call, replaces the context by the first
    bytes of the blob whatever status that call leaves, returns that status,
    and does not call the change callback. *)
Theorem RestoreNvmCtx_replaces_whatever_status
  (w : World E) (blob : buffer) (e : E) (st : SecureElementStatus_t)
  (o : list Z) :
  SeContext_wf (SeContext w) ->
  (sizeof_SeContext <= length blob)%nat ->
  crypto (LR1110 w) lr1110_crypto_restore_from_flash LR1110_CRYPTO_STATUS_ERROR
    = (e, st, o) ->
  SecureElementRestoreNvmCtx (Some blob) w =
  Returns (st,
           {| LR1110 := e;
              SeContext := SeContext_of_bytes (firstn sizeof_SeContext blob);
              SeNvmCtxChanged := SeNvmCtxChanged w;
              trace := trace w ++ [CryptoCall lr1110_crypto_restore_from_flash] |}).
Proof.
  intros Hwf Hlen Hcall.
  unfold SecureElementRestoreNvmCtx. run. rewrite Hcall.
  rewrite memcpy1_Some
    by (rewrite ?SeContext_bytes_length by assumption; lia).
  rewrite poke_whole
    by (rewrite length_firstn, SeContext_bytes_length by assumption; lia).
  reflexivity.
Qed.

(** X14.  [SecureElementRestoreNvmCtx] on a blob shorter than the context
    has undefined behaviour: it copies the size of the context, whatever the
    blob holds. *)
Theorem RestoreNvmCtx_short_blob_undefined (w : World E) (blob : buffer) :
  (length blob < sizeof_SeContext)%nat ->
  SecureElementRestoreNvmCtx (Some blob) w = Undefined.
Proof.
  intros Hlen. unfold SecureElementRestoreNvmCtx. run.
  destruct (crypto (LR1110 w) lr1110_crypto_restore_from_flash
              LR1110_CRYPTO_STATUS_ERROR) as [[e st] o].
  unfold memcpy1.
  destruct sizeof_SeContext as [|n] eqn:Hn; [lia|].
  replace (S n <=? length blob)%nat with false
    by (symmetry; apply Nat.leb_gt; lia).
  reflexivity.
Qed.

(** X15.  Whenever [SecureElementInit] returns, the callback pointer holds
    the caller's function, or [DummyCB] for a null argument; that callback
    has been called exactly once, as the last event; and the status returned
    is the one the restore call of the engine left, which is the first
    event. *)
Theorem Init_installs_and_notifies
  (w w' : World E) (seNvmCtxChanged : option nat)
  (status : SecureElementStatus_t) :
  SecureElementInit seNvmCtxChanged w = Returns (status, w') ->
  SeNvmCtxChanged w' = Some (installed_callback seNvmCtxChanged) /\
  (exists e o middle,
     crypto (LR1110 w) lr1110_crypto_restore_from_flash
       LR1110_CRYPTO_STATUS_ERROR = (e, status, o) /\
     trace w' =
       trace w ++ [CryptoCall lr1110_crypto_restore_from_flash] ++ middle ++
       [NvmCtxChanged (installed_callback seNvmCtxChanged)] /\
     count is_NvmCtxChanged middle = 0%nat) /\
  count is_NvmCtxChanged (trace w') = S (count is_NvmCtxChanged (trace w)).
Proof.
  intros H. unfold SecureElementInit in H. run_in H.
  repeat (break_hyp H; try discriminate H).
  all: cbn [LR1110 SeContext SeNvmCtxChanged trace] in *.
  all: injection H as <- <-; cbn [SeNvmCtxChanged trace].
  all: repeat match goal with
       | Hs : Some _ = Some _ |- _ => injection Hs as <-
       end.
  all: subst; cbn [installed_callback].
  all: (split; [reflexivity|]).
  all: split;
    [match goal with
     | Hc : crypto _ _ _ = (?e, _, ?o) |- _ =>
         exists e, o;
         first
           [ exists [BoardCall lr1110_system_read_uid;
                     BoardCall lr1110_system_read_join_eui;
                     BoardCall lr1110_system_read_pin];
             split; [first [exact Hc | reflexivity]|];
             split; [rewrite <- ?app_assoc; reflexivity|reflexivity]
           | exists [BoardCall LR1110SeHalGetUniqueId];
             split; [first [exact Hc | reflexivity]|];
             split; [rewrite <- ?app_assoc; reflexivity|reflexivity]
           | exists [];
             split; [first [exact Hc | reflexivity]|];
             split; [rewrite <- ?app_assoc; reflexivity|reflexivity] ]
     end|].
  all: rewrite !count_app; unfold count; cbn; lia.
Qed.

(** X16.  Before [SecureElementInit] the callback pointer is null, and a
    setter with a buffer that holds the field calls through it: the
    behaviour is undefined.  After [SecureElementInit] has returned, the
    same call returns Success and its last event is a call of the installed
    callback. *)
Theorem setter_needs_Init
  (w : World E) (src : buffer) :
  SeContext_wf (SeContext w) ->
  (SE_EUI_SIZE <= length src)%nat ->
  (SeNvmCtxChanged w = None ->
   SecureElementSetDevEui (Some src) w = Undefined) /\
  (forall seNvmCtxChanged status w1,
     SecureElementInit seNvmCtxChanged w = Returns (status, w1) ->
     exists w2,
       SecureElementSetDevEui (Some src) w1
       = Returns (SECURE_ELEMENT_SUCCESS, w2) /\
       trace w2 =
         trace w1 ++ [NvmCtxChanged (installed_callback seNvmCtxChanged)]).
Proof.
  intros Hwf Hsrc. split.
  - intros Hnull. destruct Hwf as (Hd & _).
    unfold SecureElementSetDevEui. run.
    rewrite (memcpy1_field _ _ _ Hd Hsrc). now rewrite Hnull.
  - intros a status w1 Hinit.
    pose proof (Init_assigns_callback _ _ _ _ Hinit) as Hcb.
    pose proof (Init_preserves_wf _ _ _ _ Hwf Hinit) as Hwf1.
    destruct Hwf1 as (Hd & _).
    unfold SecureElementSetDevEui. run.
    rewrite (memcpy1_field _ _ _ Hd Hsrc), Hcb.
    eexists. split; reflexivity.
Qed.

End ContextPaths.

(** ** Key storage and unchecked pointers *)

Section KeyPaths.

Context {cfg : BuildConfig} {E : Type} {env : Collaborators E}.

(** X17.  A Success from [SecureElementSetKey] means that the key went into
    its slot and was persisted: the function has made exactly two engine
    calls, the first one (a derivation for MC_KEY_0..3, a direct store
    otherwise) left Success, and the second one is the persist call, which
    left Success too. *)
Theorem SetKey_success_means_persisted
  (w w' : World E) (keyID : KeyIdentifier_t) (key : option buffer) :
  SecureElementSetKey keyID key w = Returns (SECURE_ELEMENT_SUCCESS, w') ->
  exists k first e1 o1 o2,
    key = Some k /\
    first =
      (if is_mc_key keyID
       then lr1110_crypto_derive_and_store_key
              (convert_key_id_from_se_to_lr1110 MC_KE_KEY)
              (convert_key_id_from_se_to_lr1110 keyID) k
       else lr1110_crypto_set_key (convert_key_id_from_se_to_lr1110 keyID) k) /\
    crypto (LR1110 w) first SECURE_ELEMENT_ERROR
      = (e1, SECURE_ELEMENT_SUCCESS, o1) /\
    crypto e1 lr1110_crypto_store_to_flash SECURE_ELEMENT_SUCCESS
      = (LR1110 w', SECURE_ELEMENT_SUCCESS, o2) /\
    trace w' =
      trace w ++ [CryptoCall first; CryptoCall lr1110_crypto_store_to_flash].
Proof.
  intros H. unfold SecureElementSetKey, bind, ret, lr1110_crypto in H.
  cbn [LR1110 SeContext SeNvmCtxChanged trace] in H.
  destruct key as [k|]; [|discriminate H].
  exists k.
  destruct (is_mc_key keyID).
  all: match type of H with
       | context [crypto ?e0 ?first SECURE_ELEMENT_ERROR] =>
           exists first;
           destruct (crypto e0 first SECURE_ELEMENT_ERROR)
             as [[e1 st1] o1] eqn:Hfirst
       end.
  all: rewrite ?Hfirst in H.
  all: cbn [LR1110 SeContext SeNvmCtxChanged trace] in H.
  all: destruct st1; cbn [is_success] in H; try discriminate H.
  all: match type of H with
       | context [crypto ?e0 lr1110_crypto_store_to_flash ?s] =>
           destruct (crypto e0 lr1110_crypto_store_to_flash s)
             as [[e2 st2] o2] eqn:Hstore
       end.
  all: cbn [LR1110 SeContext SeNvmCtxChanged trace] in H, Hstore.
  all: injection H as -> <-; cbn [LR1110 trace].
  all: exists e1, o1, o2; rewrite <- app_assoc; auto.
Qed.


End KeyPaths.

(** ** The further theorems at concrete inputs *)

(** The theorem on what a run touches, on a frame accepted by the 1.0.x
    trial. *)
Lemma ProcessJoinAccept_only_engine_calls_frame17 :
  only_calls is_process_join_accept 2
    (world_of [(SECURE_ELEMENT_SUCCESS, body_v10)])
    (after_call (world_of [(SECURE_ELEMENT_SUCCESS, body_v10)]) []
       (trial_1_0_x (cfg := stack_config) 0xFF frame17 17)).
Proof.
  apply (ProcessJoinAccept_only_engine_calls (cfg := stack_config)
           (env := scripted) _ _ 0xFF (Some eui8) 0x1234 (Some frame17) 17
           (Some (repeat 0 17)) (Some 7)
           {| ja_status := SECURE_ELEMENT_SUCCESS;
              ja_decJoinAccept := Some (0 :: body_v10);
              ja_versionMinor := Some 0 |}).
  reflexivity.
Defined.

(** The theorem on the MHDR byte, on a frame accepted by the 1.1.x trial. *)
Lemma ProcessJoinAccept_keeps_mhdr_and_length_frame17 :
  exists dec',
    Some (0x20 :: body_v11) = Some dec' /\
    length dec' = 17%nat /\
    firstn 1 dec' = [0x20].
Proof.
  apply (ProcessJoinAccept_keeps_mhdr_and_length (cfg := stack_config)
           (env := scripted)
           (world_of [(SECURE_ELEMENT_ENGINE_CODE 1, []);
                      (SECURE_ELEMENT_SUCCESS, body_v11)])
           (after_call
              (after_call (world_of []) [(SECURE_ELEMENT_SUCCESS, body_v11)]
                 (trial_1_0_x (cfg := stack_config) 0xFF frame17 17)) []
              (trial_1_1_x (cfg := stack_config) 0xFF eui8 0x1234 frame17 17))
           0xFF (Some eui8) 0x1234 (Some frame17) 17 (0x20 :: repeat 0 16)
           (Some 7)
           {| ja_status := SECURE_ELEMENT_SUCCESS;
              ja_decJoinAccept := Some (0x20 :: body_v11);
              ja_versionMinor := Some 1 |}).
  reflexivity.
Defined.

(** The theorem on the minor version of a Success, on the same run. *)
Lemma ProcessJoinAccept_success_writes_minor_frame17 :
  Some 1 = Some 0 \/ Some 1 = Some 1.
Proof.
  apply (ProcessJoinAccept_success_writes_minor (cfg := stack_config)
           (env := scripted)
           (world_of [(SECURE_ELEMENT_ENGINE_CODE 1, []);
                      (SECURE_ELEMENT_SUCCESS, body_v11)])
           (after_call
              (after_call (world_of []) [(SECURE_ELEMENT_SUCCESS, body_v11)]
                 (trial_1_0_x (cfg := stack_config) 0xFF frame17 17)) []
              (trial_1_1_x (cfg := stack_config) 0xFF eui8 0x1234 frame17 17))
           0xFF (Some eui8) 0x1234 (Some frame17) 17 (Some (repeat 0 17))
           (Some 7)
           {| ja_status := SECURE_ELEMENT_SUCCESS;
              ja_decJoinAccept := Some (0 :: body_v11);
              ja_versionMinor := Some 1 |}).
  - reflexivity.
  - reflexivity.
Defined.

(** The theorem on two failing trials, on an engine that rejects both. *)
Lemma ProcessJoinAccept_both_trials_fail_frame17 :
  SecureElementProcessJoinAccept (cfg := stack_config) (env := scripted)
    0xFF (Some eui8) 0x1234 (Some frame17) 17 (Some (repeat 0 17)) (Some 7)
    (world_of [(SECURE_ELEMENT_ENGINE_CODE 1, []);
               (SECURE_ELEMENT_ENGINE_CODE 2, [])])
  = Returns ({| ja_status := SECURE_ELEMENT_ENGINE_CODE 2;
                ja_decJoinAccept := Some (repeat 0 17);
                ja_versionMinor := Some 7 |},
             after_call
               (after_call (world_of []) [(SECURE_ELEMENT_ENGINE_CODE 2, [])]
                  (trial_1_0_x (cfg := stack_config) 0xFF frame17 17)) []
               (trial_1_1_x (cfg := stack_config) 0xFF eui8 0x1234 frame17 17)).
Proof.
  apply (ProcessJoinAccept_both_trials_fail (cfg := stack_config)
           (env := scripted)
           (world_of [(SECURE_ELEMENT_ENGINE_CODE 1, []);
                      (SECURE_ELEMENT_ENGINE_CODE 2, [])])
           0xFF eui8 0x1234 frame17 17 (repeat 0 17) 7
           [(SECURE_ELEMENT_ENGINE_CODE 2, [])] []
           (SECURE_ELEMENT_ENGINE_CODE 1) (SECURE_ELEMENT_ENGINE_CODE 2) [] []).
  - reflexivity.
  - simpl. lia.
  - simpl. lia.
  - reflexivity.
  - simpl. lia.
  - discriminate.
  - reflexivity.
  - simpl. lia.
  - discriminate.
Defined.

(** The theorem on a build without the 1.1.x trial, on a rejected frame and
    on an accepted frame with the version bit set. *)
Lemma ProcessJoinAccept_without_1_1_x_frame17 :
  SecureElementProcessJoinAccept (cfg := legacy_config) (env := scripted)
    0xFF (Some eui8) 0x1234 (Some frame17) 17 (Some (repeat 0 17)) (Some 7)
    (world_of [(SECURE_ELEMENT_ENGINE_CODE 1, [])])
  = Returns ({| ja_status := SECURE_ELEMENT_ENGINE_CODE 1;
                ja_decJoinAccept := Some (repeat 0 17);
                ja_versionMinor := Some 7 |},
             after_call (world_of []) []
               (trial_1_0_x (cfg := legacy_config) 0xFF frame17 17)) /\
  SecureElementProcessJoinAccept (cfg := legacy_config) (env := scripted)
    0xFF (Some eui8) 0x1234 (Some frame17) 17 (Some (repeat 0 17)) (Some 7)
    (world_of [(SECURE_ELEMENT_SUCCESS, body_v11)])
  = Returns ({| ja_status := SECURE_ELEMENT_SUCCESS;
                ja_decJoinAccept := Some (0 :: body_v11);
                ja_versionMinor := Some 1 |},
             after_call (world_of []) []
               (trial_1_0_x (cfg := legacy_config) 0xFF frame17 17)).
Proof.
  split.
  - destruct (ProcessJoinAccept_without_1_1_x (cfg := legacy_config)
                (env := scripted)
                (world_of [(SECURE_ELEMENT_ENGINE_CODE 1, [])])
                0xFF (Some eui8) 0x1234 frame17 17 (repeat 0 17) 7 []
                (SECURE_ELEMENT_ENGINE_CODE 1) []) as [Hfail _].
    + discriminate.
    + simpl. lia.
    + reflexivity.
    + simpl. lia.
    + apply Hfail. discriminate.
  - destruct (ProcessJoinAccept_without_1_1_x (cfg := legacy_config)
                (env := scripted)
                (world_of [(SECURE_ELEMENT_SUCCESS, body_v11)])
                0xFF (Some eui8) 0x1234 frame17 17 (repeat 0 17) 7 []
                SECURE_ELEMENT_SUCCESS body_v11) as [_ Hok].
    + discriminate.
    + simpl. lia.
    + reflexivity.
    + simpl. lia.
    + exact (Hok true eq_refl eq_refl).
Defined.

(** The theorem on the unchecked JoinEUI, with a null [joinEui] after a
    rejected 1.0.x trial. *)
Lemma ProcessJoinAccept_joinEui_unchecked_frame17 :
  SecureElementProcessJoinAccept (cfg := stack_config) (env := scripted)
    0xFF None 0x1234 (Some frame17) 17 (Some (repeat 0 17)) (Some 7)
    (world_of [(SECURE_ELEMENT_ENGINE_CODE 1, [])])
  = Undefined.
Proof.
  apply (ProcessJoinAccept_joinEui_unchecked (cfg := stack_config)
           (env := scripted) (world_of [(SECURE_ELEMENT_ENGINE_CODE 1, [])])
           0xFF None 0x1234 frame17 17 (repeat 0 17) 7 []
           (SECURE_ELEMENT_ENGINE_CODE 1) []).
  - reflexivity.
  - simpl. lia.
  - reflexivity.
  - simpl. lia.
  - left. discriminate.
  - exact I.
Defined.

(** The null-input theorem: [SecureElementAesEncrypt] with a null output
    buffer. *)
Lemma null_inputs_return_NPE_without_calls_runs :
  SecureElementAesEncrypt (env := scripted) (Some (repeat 0 16)) 16 APP_KEY
    None (world_of [(SECURE_ELEMENT_SUCCESS, repeat 1 16)])
  = Returns ((SECURE_ELEMENT_ERROR_NPE, None),
             world_of [(SECURE_ELEMENT_SUCCESS, repeat 1 16)]).
Proof.
  destruct (null_inputs_return_NPE_without_calls (cfg := stack_config)
              (env := scripted)
              (world_of [(SECURE_ELEMENT_SUCCESS, repeat 1 16)]))
    as (_ & _ & _ & Henc & _).
  apply Henc. right. reflexivity.
Defined.


(** The theorem on the lifetime of the scratch array, at the size 240. *)
Lemma ComputeAesCmac_mic_block_out_of_scope_240 :
  (exists localSize micBuff,
     ComputeAesCmac_micBuff (Some (repeat 1 16)) (Some (repeat 2 240)) 240
     = Returns (localSize, micBuff)) /\
  SecureElementComputeAesCmac (env := scripted) (Some (repeat 1 16))
    (Some (repeat 2 240)) 240 APP_KEY (Some [0; 0; 0; 0])
    (world_of [(SECURE_ELEMENT_SUCCESS, [9; 9; 9; 9])])
  = Undefined.
Proof.
  apply (ComputeAesCmac_mic_block_out_of_scope (env := scripted)).
  - rewrite repeat_length. lia.
  - lia.
  - rewrite repeat_length. lia.
Defined.

(** The frame theorem on a run of each of the five functions. *)
Lemma facade_only_engine_calls_runs :
  only_calls is_crypto_call 2
    (world_of [(SECURE_ELEMENT_SUCCESS, []); (SECURE_ELEMENT_SUCCESS, [])])
    (after_call
       (after_call (world_of []) [(SECURE_ELEMENT_SUCCESS, [])]
          (lr1110_crypto_set_key LR1110_CRYPTO_KEYS_IDX_APP_KEY (repeat 5 16)))
       [] lr1110_crypto_store_to_flash) /\
  only_calls is_crypto_call 2
    (world_of [(SECURE_ELEMENT_SUCCESS, []); (SECURE_ELEMENT_SUCCESS, [])])
    (after_call
       (after_call (world_of []) [(SECURE_ELEMENT_SUCCESS, [])]
          (lr1110_crypto_derive_and_store_key LR1110_CRYPTO_KEYS_IDX_NWK_KEY
             LR1110_CRYPTO_KEYS_IDX_APP_S_KEY (repeat 5 16)))
       [] lr1110_crypto_store_to_flash) /\
  only_calls is_crypto_call 1
    (world_of [(SECURE_ELEMENT_SUCCESS, [9; 9; 9; 9])])
    (after_call (world_of []) []
       (lr1110_crypto_compute_aes_cmac LR1110_CRYPTO_KEYS_IDX_APP_KEY
          (Some (repeat 2 8)) 8)) /\
  only_calls is_crypto_call 1
    (world_of [(SECURE_ELEMENT_SUCCESS, [])])
    (after_call (world_of []) []
       (lr1110_crypto_verify_aes_cmac LR1110_CRYPTO_KEYS_IDX_APP_KEY
          (repeat 2 8) 8 0x01020304)) /\
  only_calls is_crypto_call 1
    (world_of [(SECURE_ELEMENT_SUCCESS, repeat 1 16)])
    (after_call (world_of []) []
       (lr1110_crypto_aes_encrypt_01 LR1110_CRYPTO_KEYS_IDX_APP_KEY
          (repeat 2 16) 16)).
Proof.
  split; [|split; [|split; [|split]]].
  - destruct (facade_only_engine_calls (env := scripted)
                (world_of [(SECURE_ELEMENT_SUCCESS, []);
                           (SECURE_ELEMENT_SUCCESS, [])])
                (after_call
                   (after_call (world_of []) [(SECURE_ELEMENT_SUCCESS, [])]
                      (lr1110_crypto_set_key LR1110_CRYPTO_KEYS_IDX_APP_KEY
                         (repeat 5 16)))
                   [] lr1110_crypto_store_to_flash))
      as (Hset & _).
    apply (Hset APP_KEY (Some (repeat 5 16)) SECURE_ELEMENT_SUCCESS).
    reflexivity.
  - destruct (facade_only_engine_calls (env := scripted)
                (world_of [(SECURE_ELEMENT_SUCCESS, []);
                           (SECURE_ELEMENT_SUCCESS, [])])
                (after_call
                   (after_call (world_of []) [(SECURE_ELEMENT_SUCCESS, [])]
                      (lr1110_crypto_derive_and_store_key
                         LR1110_CRYPTO_KEYS_IDX_NWK_KEY
                         LR1110_CRYPTO_KEYS_IDX_APP_S_KEY (repeat 5 16)))
                   [] lr1110_crypto_store_to_flash))
      as (_ & Hderive & _).
    apply (Hderive 0 (Some (repeat 5 16)) NWK_KEY APP_S_KEY
             SECURE_ELEMENT_SUCCESS).
    reflexivity.
  - destruct (facade_only_engine_calls (env := scripted)
                (world_of [(SECURE_ELEMENT_SUCCESS, [9; 9; 9; 9])])
                (after_call (world_of []) []
                   (lr1110_crypto_compute_aes_cmac
                      LR1110_CRYPTO_KEYS_IDX_APP_KEY (Some (repeat 2 8)) 8)))
      as (_ & _ & Hcmac & _).
    apply (Hcmac None (Some (repeat 2 8)) 8 APP_KEY (Some [0; 0; 0; 0])
             (SECURE_ELEMENT_SUCCESS, Some [9; 9; 9; 9])).
    reflexivity.
  - destruct (facade_only_engine_calls (env := scripted)
                (world_of [(SECURE_ELEMENT_SUCCESS, [])])
                (after_call (world_of []) []
                   (lr1110_crypto_verify_aes_cmac
                      LR1110_CRYPTO_KEYS_IDX_APP_KEY (repeat 2 8) 8
                      0x01020304)))
      as (_ & _ & _ & Hverify & _).
    apply (Hverify (Some (repeat 2 8)) 8 0x01020304 APP_KEY
             SECURE_ELEMENT_SUCCESS).
    reflexivity.
  - destruct (facade_only_engine_calls (env := scripted)
                (world_of [(SECURE_ELEMENT_SUCCESS, repeat 1 16)])
                (after_call (world_of []) []
                   (lr1110_crypto_aes_encrypt_01
                      LR1110_CRYPTO_KEYS_IDX_APP_KEY (repeat 2 16) 16)))
      as (_ & _ & _ & _ & Henc).
    apply (Henc (Some (repeat 2 16)) 16 APP_KEY (Some (repeat 0 16))
             (SECURE_ELEMENT_SUCCESS, Some (repeat 1 16))).
    reflexivity.
Defined.

(** The set-and-get theorem on the PIN. *)
Lemma setter_then_getters_runs :
  exists w',
    SecureElementSetPin (cfg := stack_config) (E := script)
      (Some [1; 2; 3; 4]) (world_of [])
    = Returns (SECURE_ELEMENT_SUCCESS, w') /\
    SecureElementGetDevEui w' = Returns (repeat 0 8, w') /\
    SecureElementGetJoinEui w' = Returns (repeat 0 8, w') /\
    SecureElementGetPin w' = Returns ([1; 2; 3; 4], w').
Proof.
  destruct (setter_then_getters (cfg := stack_config) (world_of []) DummyCB
              [1; 2; 3; 4]) as (_ & _ & Hpin).
  - split; [|split]; reflexivity.
  - reflexivity.
  - apply Hpin. apply Nat.leb_le. reflexivity.
Defined.

(** The snapshot-and-restore theorem on a context set by the caller. *)
Lemma GetNvmCtx_RestoreNvmCtx_identity_runs :
  20 = Z.of_nat (length (repeat 0 8 ++ repeat 0 8 ++ repeat 0 4)) /\
  exists status w',
    SecureElementRestoreNvmCtx (cfg := stack_config) (env := scripted)
      (Some (repeat 0 8 ++ repeat 0 8 ++ repeat 0 4))
      (world_of [(SECURE_ELEMENT_ENGINE_CODE 1, [])])
    = Returns (status, w') /\
    SeContext w' = SeContext (world_of []).
Proof.
  apply (GetNvmCtx_RestoreNvmCtx_identity (cfg := stack_config)
           (env := scripted) (world_of [(SECURE_ELEMENT_ENGINE_CODE 1, [])])
           (world_of [(SECURE_ELEMENT_ENGINE_CODE 1, [])]) 0 20
           (repeat 0 8 ++ repeat 0 8 ++ repeat 0 4)).
  - split; [|split]; reflexivity.
  - reflexivity.
Defined.

(** The restore theorem on an engine whose restore call fails. *)
Lemma RestoreNvmCtx_replaces_whatever_status_runs :
  SecureElementRestoreNvmCtx (cfg := stack_config) (env := scripted)
    (Some (eui8 ++ rev eui8 ++ [1; 2; 3; 4; 5; 6]))
    (world_of [(SECURE_ELEMENT_ENGINE_CODE 1, [])])
  = Returns (SECURE_ELEMENT_ENGINE_CODE 1,
             {| LR1110 := [];
                SeContext :=
                  SeContext_of_bytes (cfg := stack_config)
                    (firstn (sizeof_SeContext (cfg := stack_config))
                       (eui8 ++ rev eui8 ++ [1; 2; 3; 4; 5; 6]));
                SeNvmCtxChanged := Some DummyCB;
                trace := [] ++ [CryptoCall lr1110_crypto_restore_from_flash] |}).
Proof.
  apply (RestoreNvmCtx_replaces_whatever_status (cfg := stack_config)
           (env := scripted) (world_of [(SECURE_ELEMENT_ENGINE_CODE 1, [])])
           (eui8 ++ rev eui8 ++ [1; 2; 3; 4; 5; 6]) []
           (SECURE_ELEMENT_ENGINE_CODE 1) []).
  - split; [|split]; reflexivity.
  - apply Nat.leb_le. reflexivity.
  - reflexivity.
Defined.

(** The short-blob theorem on a blob of 19 bytes, one less than the
    context. *)
Lemma RestoreNvmCtx_short_blob_undefined_19 :
  SecureElementRestoreNvmCtx (cfg := stack_config) (env := scripted)
    (Some (repeat 0 19)) (world_of [(SECURE_ELEMENT_SUCCESS, [])])
  = Undefined.
Proof.
  apply (RestoreNvmCtx_short_blob_undefined (cfg := stack_config)
           (env := scripted)).
  apply Nat.ltb_lt. reflexivity.
Defined.

(** The initialisation theorem on a run with a null callback argument. *)
Lemma Init_installs_and_notifies_runs :
  Some DummyCB = Some (installed_callback None) /\
  count is_NvmCtxChanged
    [CryptoCall lr1110_crypto_restore_from_flash;
     BoardCall LR1110SeHalGetUniqueId; NvmCtxChanged DummyCB] = 1%nat.
Proof.
  destruct (Init_installs_and_notifies (cfg := stack_config) (env := scripted)
              {| LR1110 := [(SECURE_ELEMENT_SUCCESS, [])];
                 SeContext := SeContext (world_of []);
                 SeNvmCtxChanged := None;
                 trace := [] |}
              {| LR1110 := [];
                 SeContext := {| DevEui := [1; 2; 3; 4; 5; 6; 7; 8];
                                 JoinEui := repeat 0 8; Pin := repeat 0 4 |};
                 SeNvmCtxChanged := Some DummyCB;
                 trace := [CryptoCall lr1110_crypto_restore_from_flash;
                           BoardCall LR1110SeHalGetUniqueId;
                           NvmCtxChanged DummyCB] |}
              None SECURE_ELEMENT_SUCCESS) as (Hcb & _ & Hcount).
  - reflexivity.
  - split; [exact Hcb | exact Hcount].
Defined.

(** The theorem on setters and initialisation, before and after
    [SecureElementInit] with a null callback argument. *)
Lemma setter_needs_Init_runs :
  SecureElementSetDevEui (E := script) (Some eui8)
    {| LR1110 := [(SECURE_ELEMENT_SUCCESS, [])];
       SeContext := SeContext (world_of []);
       SeNvmCtxChanged := None;
       trace := [] |}
  = Undefined /\
  exists w2,
    SecureElementSetDevEui (E := script) (Some eui8)
      {| LR1110 := [];
         SeContext := {| DevEui := [1; 2; 3; 4; 5; 6; 7; 8];
                         JoinEui := repeat 0 8; Pin := repeat 0 4 |};
         SeNvmCtxChanged := Some DummyCB;
         trace := [CryptoCall lr1110_crypto_restore_from_flash;
                   BoardCall LR1110SeHalGetUniqueId;
                   NvmCtxChanged DummyCB] |}
    = Returns (SECURE_ELEMENT_SUCCESS, w2) /\
    trace w2 =
      [CryptoCall lr1110_crypto_restore_from_flash;
       BoardCall LR1110SeHalGetUniqueId; NvmCtxChanged DummyCB] ++
      [NvmCtxChanged (installed_callback None)].
Proof.
  destruct (setter_needs_Init (cfg := stack_config) (env := scripted)
              {| LR1110 := [(SECURE_ELEMENT_SUCCESS, [])];
                 SeContext := SeContext (world_of []);
                 SeNvmCtxChanged := None;
                 trace := [] |} eui8) as (Hbefore & Hafter).
  - split; [|split]; reflexivity.
  - apply Nat.leb_le. reflexivity.
  - split.
    + apply Hbefore. reflexivity.
    + apply (Hafter None SECURE_ELEMENT_SUCCESS). reflexivity.
Defined.

(** The theorem on a Success of [SecureElementSetKey], on a multicast
    key. *)
Lemma SetKey_success_means_persisted_runs :
  exists k first e1 o1 o2,
    Some (repeat 5 16) = Some k /\
    first = lr1110_crypto_derive_and_store_key
              LR1110_CRYPTO_KEYS_IDX_GP_KE_KEY_4
              LR1110_CRYPTO_KEYS_IDX_GP_KE_KEY_3 k /\
    crypto (Collaborators := scripted)
      [(SECURE_ELEMENT_SUCCESS, []); (SECURE_ELEMENT_SUCCESS, [])] first
      SECURE_ELEMENT_ERROR = (e1, SECURE_ELEMENT_SUCCESS, o1) /\
    crypto (Collaborators := scripted) e1 lr1110_crypto_store_to_flash
      SECURE_ELEMENT_SUCCESS = ([], SECURE_ELEMENT_SUCCESS, o2) /\
    [CryptoCall
       (lr1110_crypto_derive_and_store_key LR1110_CRYPTO_KEYS_IDX_GP_KE_KEY_4
          LR1110_CRYPTO_KEYS_IDX_GP_KE_KEY_3 (repeat 5 16));
     CryptoCall lr1110_crypto_store_to_flash]
    = [] ++ [CryptoCall first; CryptoCall lr1110_crypto_store_to_flash].
Proof.
  apply (SetKey_success_means_persisted (env := scripted)
           (world_of [(SECURE_ELEMENT_SUCCESS, []);
                      (SECURE_ELEMENT_SUCCESS, [])])
           {| LR1110 := [];
              SeContext := SeContext (world_of []);
              SeNvmCtxChanged := Some DummyCB;
              trace :=
                [CryptoCall
                   (lr1110_crypto_derive_and_store_key
                      LR1110_CRYPTO_KEYS_IDX_GP_KE_KEY_4
                      LR1110_CRYPTO_KEYS_IDX_GP_KE_KEY_3 (repeat 5 16));
                 CryptoCall lr1110_crypto_store_to_flash] |}
           MC_KEY_3 (Some (repeat 5 16))).
  reflexivity.
Defined.

